(** * racs-go-lib: the RACS REST client, embedded and verified
    A shallow embedding of [racs.go].  The package is a thin client: every
    operation validates its arguments, builds a URL and a JSON payload,
    performs one HTTP round trip and decodes the answer into a
    [map[string]interface{}].  What lies outside the package (the file
    system, [net/http], the remote service) is an explicit [World] the
    operations consult; what the operations do to it is recorded in a trace
    of events.  The receiver [r *Racs] is a cell of mutable state threaded
    through every call. *)

Set Warnings "-register-all".
From Stdlib Require Import QArith Lqa.
From stdpp Require Import gmap strings list fin_maps.
From Stdlib Require Import Ascii.

Local Open Scope Z_scope.

(** ** Go values *)

(** The dynamic values an [interface{}] holds in this package.  A [float64]
    that comes out of [encoding/json] is finite, so it is a rational and Go's
    [==] and [>] on it are the rational ones.  [VMap None] is a nil
    [map[string]interface{}] boxed in an interface, which differs from the
    nil interface [VNil].  [VChan] stands for the values [encoding/json]
    refuses (channels, functions, complex numbers). *)
Inductive value : Type :=
  | VNil
  | VBool (b : bool)
  | VInt (n : Z)
  | VFloat64 (q : Q)
  | VString (s : string)
  | VSlice (l : list value)
  | VMap (m : option (gmap string value))
  | VMapInt (m : gmap string Z)
  | VChan.

(** [map[string]interface{}]: [None] is the nil map. *)
Abbreviation gomap := (option (gmap string value)).

(** [m[key]]: indexing a map, nil or not, yields the zero value of the element
    type when the key is absent; for [interface{}] that is the nil interface. *)
Definition index (m : gomap) (key : string) : value :=
  match m with
  | None => VNil
  | Some entries => default VNil (entries !! key)
  end.

(** Go's [==] and [>] on finite [float64]. *)
Definition float64_eq (x y : Q) : bool := Qeq_bool x y.
Definition float64_gt (x y : Q) : bool := negb (Qle_bool x y).

(** ** Errors *)

(** Errors made outside the package. *)
Inductive foreign : Type :=
  | UnsupportedTypeError
  | SyntaxError (msg : string)
  | UnmarshalTypeError
  | PathError (op path : string)
  | UrlError (op url : string)
  | NetError (msg : string).

(** The [error] values the package returns: the ones it allocates where it
    validates its arguments ([errors.New] at the return site), its two
    package-level variables, and whatever a library handed back. *)
Inductive error : Type :=
  | errors_New (msg : string)
  | ErrNoUpdatesMade
  | ErrFailedDelete
  | Foreign (e : foreign).

Definition foreign_message (e : foreign) : string :=
  match e with
  | UnsupportedTypeError => "json: unsupported type"
  | SyntaxError msg => msg
  | UnmarshalTypeError => "json: cannot unmarshal into Go value of type map[string]interface {}"
  | PathError op path => op +:+ " " +:+ path
  | UrlError op url => op +:+ " " +:+ url
  | NetError msg => msg
  end.

(** [err.Error()]. *)
Definition Error (e : error) : string :=
  match e with
  | errors_New msg => msg
  | ErrNoUpdatesMade => "no updates were made"
  | ErrFailedDelete => "failed to delete post"
  | Foreign f => foreign_message f
  end.

(** A validation error is one of the errors allocated in place. *)
Definition is_validation (e : error) : bool :=
  match e with
  | errors_New _ => true
  | _ => false
  end.

(** ** encoding/json *)

(** A JSON text, after parsing; a parser keeps the last of duplicate keys. *)
Inductive json : Type :=
  | JNull
  | JBool (b : bool)
  | JNumber (q : Q)
  | JString (s : string)
  | JArray (l : list json)
  | JObject (m : gmap string json).

Fixpoint supported (v : value) : bool :=
  match v with
  | VSlice l => forallb supported l
  | VMap (Some m) => map_fold (λ _ x acc, supported x && acc) true m
  | VChan => false
  | _ => true
  end.

Fixpoint encode (v : value) : json :=
  match v with
  | VNil => JNull
  | VBool b => JBool b
  | VInt n => JNumber (inject_Z n)
  | VFloat64 q => JNumber q
  | VString s => JString s
  | VSlice l => JArray (map encode l)
  | VMap None => JNull
  | VMap (Some m) => JObject (encode <$> m)
  | VMapInt m => JObject ((λ n, JNumber (inject_Z n)) <$> m)
  | VChan => JNull
  end.

(** [json.Marshal]: the document for [v], or an error when [v] holds a value
    that has no JSON form. *)
Definition json_Marshal (v : value) : foreign + json :=
  if supported v then inr (encode v) else inl UnsupportedTypeError.

(** What decoding into an [interface{}] makes of a document: numbers become
    [float64], objects [map[string]interface{}], arrays [[]interface{}]. *)
Fixpoint to_value (j : json) : value :=
  match j with
  | JNull => VNil
  | JBool b => VBool b
  | JNumber q => VFloat64 q
  | JString s => VString s
  | JArray l => VSlice (map to_value l)
  | JObject m => VMap (Some (to_value <$> m))
  end.

(** A response body as [json.NewDecoder(body)] sees it: reading or parsing
    fails, or there is a first JSON value. *)
Inductive stream : Type :=
  | Undecodable (e : foreign)
  | Document (j : json).

(** [json.NewDecoder(body).Decode(&result)] for [var result
    map[string]interface{}]: [null] leaves the map nil without an error, an
    object fills it, any other value is a type error. *)
Definition Decode (body : stream) : gomap * option error :=
  match body with
  | Undecodable e => (None, Some (Foreign e))
  | Document JNull => (None, None)
  | Document (JObject m) => (Some (to_value <$> m), None)
  | Document _ => (None, Some (Foreign UnmarshalTypeError))
  end.

(** ** fmt *)

(** [fmt.Sprintf] for formats whose only verb is [%s], applied to strings. *)
Fixpoint fmt_Sprintf (format : string) (args : list string) : string :=
  match format with
  | EmptyString => EmptyString
  | String "%"%char (String "s"%char rest) =>
      match args with
      | a :: args' => a +:+ fmt_Sprintf rest args'
      | [] => "%!s(MISSING)" +:+ fmt_Sprintf rest []
      end
  | String c rest => String c (fmt_Sprintf rest args)
  end.

(** ** net/http *)

(** [textproto.CanonicalMIMEHeaderKey]: a key made only of token bytes gets
    its first letter and every letter after a hyphen in upper case and the
    others in lower case; any other key is left as it is. *)
Definition validHeaderFieldByte (c : ascii) : bool :=
  let n := N_of_ascii c in
  ((48 <=? n) && (n <=? 57) || (65 <=? n) && (n <=? 90) || (97 <=? n) && (n <=? 122)
   || bool_decide (c ∈ String.list_ascii_of_string "!#$%&'*+-.^_`|~"))%N.

Definition toUpper (c : ascii) : ascii :=
  let n := N_of_ascii c in
  if ((97 <=? n) && (n <=? 122))%N then ascii_of_N (n - 32) else c.

Definition toLower (c : ascii) : ascii :=
  let n := N_of_ascii c in
  if ((65 <=? n) && (n <=? 90))%N then ascii_of_N (n + 32) else c.

Fixpoint canonicalCase (upper : bool) (s : string) : string :=
  match s with
  | EmptyString => EmptyString
  | String c rest =>
      let c' := if upper then toUpper c else toLower c in
      String c' (canonicalCase (Ascii.eqb c' "-"%char) rest)
  end.

Definition CanonicalMIMEHeaderKey (s : string) : string :=
  if forallb validHeaderFieldByte (String.list_ascii_of_string s)
  then canonicalCase true s
  else s.

(** [http.Header] and its [Set]. *)
Abbreviation Header := (gmap string (list string)).

Definition Header_Set (key val : string) (h : Header) : Header :=
  <[CanonicalMIMEHeaderKey key := [val]]> h.

(** The body handed to [http.NewRequest]: the bytes [json.Marshal] produced
    for a document, or bytes copied from a file. *)
Inductive payload : Type :=
  | JSONText (j : json)
  | RawBytes (s : string).

Record Request : Type := mkRequest {
  Method : string;
  URL : string;
  Body : option payload;
  ReqHeader : Header;
}.

Definition withHeader (h : Header) (req : Request) : Request :=
  {| Method := Method req; URL := URL req; Body := Body req; ReqHeader := h |}.

(** ** The client *)

Record Racs : Type := mkRacs {
  Resource : string;
  Dataset : string;
  Headers : gmap string string;
  BaseURL : string;
}.

(** ** The world and the effects *)

(** Everything the package asks of its environment.  Each field answers one
    library call: [os.Open], [io.Copy] from the opened file, the validation
    [http.NewRequest] does of method and URL, and [http.Client.Do]. *)
Record World : Type := mkWorld {
  world_Open : string → option foreign;
  world_Copy : string → foreign + string;
  world_NewRequest : string → string → option foreign;
  world_Do : Request → foreign + stream;
}.

Inductive event : Type :=
  | EvOpen (path : string)
  | EvCloseFile (path : string)
  | EvDo (req : Request)
  | EvCloseBody
  | EvPrintln (line : string).

(** How a call ends: it returns, or a type assertion [x.(float64)] on a
    value that is not a [float64] panics. *)
Inductive outcome (A : Type) : Type :=
  | Returns (a : A)
  | Panics (v : value).
Arguments Returns {A} a.
Arguments Panics {A} v.

(** A computation reads the world, reads and writes the client behind the
    receiver, and emits events. *)
Definition M (A : Type) : Type := World → Racs → outcome A * Racs * list event.

Definition ret {A} (a : A) : M A := λ _ r, (Returns a, r, []).

Definition bind {A B} (m : M A) (k : A → M B) : M B :=
  λ w r,
    match m w r with
    | (Returns a, r1, t1) =>
        match k a w r1 with
        | (o, r2, t2) => (o, r2, t1 ++ t2)
        end
    | (Panics v, r1, t1) => (Panics v, r1, t1)
    end.

Notation "x <- m ;; k" := (bind m (λ x, k))
  (at level 100, m at next level, right associativity).
Notation "m ;;; k" := (bind m (λ _, k))
  (at level 100, right associativity).

(** [*r]. *)
Definition this : M Racs := λ _ r, (Returns r, r, []).

(** [r.Headers[key] = val], the one mutation the caller is entitled to. *)
Definition Headers_assign (key val : string) : M unit :=
  λ _ r,
    (Returns tt,
     {| Resource := Resource r; Dataset := Dataset r;
        Headers := <[key := val]> (Headers r); BaseURL := BaseURL r |},
     []).

Definition emit (e : event) : M unit := λ _ r, (Returns tt, r, [e]).

Definition panic {A} (v : value) : M A := λ _ r, (Panics v, r, []).

(** [defer f()]: [f] runs when the surrounding function ends, however it
    ends. *)
Definition defer {A} (cleanup : event) (m : M A) : M A :=
  λ w r, match m w r with (o, r1, t) => (o, r1, t ++ [cleanup]) end.

(** [v.(float64)]. *)
Definition assert_float64 (v : value) : M Q :=
  match v with
  | VFloat64 q => ret q
  | _ => panic v
  end.

Definition fmt_Println (line : string) : M unit := emit (EvPrintln line).

Definition os_Open (path : string) : M (option foreign) :=
  λ w r,
    match world_Open w path with
    | Some e => (Returns (Some e), r, [])
    | None => (Returns None, r, [EvOpen path])
    end.

Definition io_Copy (path : string) : M (foreign + string) :=
  λ w r, (Returns (world_Copy w path), r, []).

(** [http.NewRequest]: a request with an empty header, unless method or URL
    is refused. *)
Definition http_NewRequest (method url : string) (body : option payload)
  : M (foreign + Request) :=
  λ w r,
    match world_NewRequest w method url with
    | Some e => (Returns (inl e), r, [])
    | None =>
        (Returns (inr {| Method := method; URL := url; Body := body; ReqHeader := ∅ |}), r, [])
    end.

(** [client.Do(req)]. *)
Definition client_Do (req : Request) : M (foreign + stream) :=
  λ w r, (Returns (world_Do w req), r, [EvDo req]).

(** ** racs.go *)

Definition dquote : string := String (ascii_of_nat 34) EmptyString.

(** The message [`"name" is required`]. *)
Definition required (name : string) : string :=
  dquote +:+ name +:+ dquote +:+ " is required".

(** The result of every operation: Go's pair [(map[string]interface{}, error)]. *)
Abbreviation result := (gomap * option error)%type.

Definition NewRacs (resource dataset : string) : option Racs * option error :=
  if decide (resource = EmptyString) then
    (None, Some (errors_New "resource can't be empty"))
  else if decide (dataset = EmptyString) then
    (None, Some (errors_New "dataset can't be empty"))
  else
    (Some {| Resource := resource;
             Dataset := dataset;
             Headers := {[ "Content-Type" := "application/json" ]};
             BaseURL := "https://racs.rest/v3" |},
     None).

(** [for key, value := range r.Headers { req.Header.Set(key, value) }]. *)
Definition range_Set (headers : gmap string string) (h : Header) : Header :=
  foldl (λ acc kv, Header_Set kv.1 kv.2 acc) h (map_to_list headers).

Definition makeRequest (method url : string) (body : option payload) : M result :=
  req <- http_NewRequest method url body ;;
  match req with
  | inl err => ret (None, Some (Foreign err))
  | inr req =>
      r <- this ;;
      let req := withHeader (range_Set (Headers r) (ReqHeader req)) req in
      res <- client_Do req ;;
      match res with
      | inl err => ret (None, Some (Foreign err))
      | inr body =>
          defer EvCloseBody
            (match Decode body with
             | (_, Some err) => ret (None, Some err)
             | (result, None) => ret (result, None)
             end)
      end
  end.

(** [bytes.NewBuffer(payload)] as the [io.Reader] of a request. *)
Definition bytes_NewBuffer (doc : json) : option payload := Some (JSONText doc).

Definition CreatePost (data : gomap) : M result :=
  if decide (data = None) then
    ret (None, Some (errors_New (required "data")))
  else
    r <- this ;;
    let url := fmt_Sprintf "%s?resource=%s&dataset=%s" [BaseURL r; Resource r; Dataset r] in
    match json_Marshal (VMap data) with
    | inl err => ret (None, Some (Foreign err))
    | inr payload =>
        res <- makeRequest "POST" url (bytes_NewBuffer payload) ;;
        match res with
        | (_, Some err) => ret (None, Some err)
        | (resp, None) => ret (resp, None)
        end
    end.

Definition CreateFile (filePath : string) : M result :=
  if decide (filePath = EmptyString) then
    ret (None, Some (errors_New (required "file_path")))
  else
    r <- this ;;
    let url := fmt_Sprintf "%s?resource=%s&dataset=%s" [BaseURL r; Resource r; Dataset r] in
    opened <- os_Open filePath ;;
    match opened with
    | Some err => ret (None, Some (Foreign err))
    | None =>
        defer (EvCloseFile filePath)
          (copied <- io_Copy filePath ;;
           match copied with
           | inl err => ret (None, Some (Foreign err))
           | inr body =>
               req <- http_NewRequest "POST" url (Some (RawBytes body)) ;;
               match req with
               | inl err => ret (None, Some (Foreign err))
               | inr req =>
                   let req :=
                     withHeader
                       (Header_Set "Content-Type" "multipart/form-data" (ReqHeader req)) req in
                   res <- client_Do req ;;
                   match res with
                   | inl err => ret (None, Some (Foreign err))
                   | inr body =>
                       defer EvCloseBody
                         (match Decode body with
                          | (_, Some err) => ret (None, Some err)
                          | (result, None) => ret (result, None)
                          end)
                   end
               end
           end)
    end.

Definition ReadPostByID (postID : string) : M result :=
  if decide (postID = EmptyString) then
    ret (None, Some (errors_New (required "post_id")))
  else
    r <- this ;;
    let url :=
      fmt_Sprintf "%s/%s?resource=%s&dataset=%s" [BaseURL r; postID; Resource r; Dataset r] in
    res <- makeRequest "GET" url None ;;
    match res with
    | (_, Some err) => ret (None, Some err)
    | (resp, None) => ret (resp, None)
    end.

Definition ReadPostByFilter (filterData sort : value) (limit : Z) : M result :=
  let filterData := match filterData with VNil => VMap (Some ∅) | _ => filterData end in
  let sort := match sort with VNil => VMapInt {[ "_created" := -1 ]} | _ => sort end in
  let limit := if decide (limit = 0) then 1 else limit in
  r <- this ;;
  let url := fmt_Sprintf "%s/get?resource=%s&dataset=%s" [BaseURL r; Resource r; Dataset r] in
  match json_Marshal
          (VMap (Some {[ "filter" := filterData; "sort" := sort; "limit" := VInt limit ]}))
  with
  | inl err => ret (None, Some (Foreign err))
  | inr payload =>
      res <- makeRequest "POST" url (bytes_NewBuffer payload) ;;
      match res with
      | (_, Some err) => ret (None, Some err)
      | (resp, None) => ret (resp, None)
      end
  end.

Definition ReadFileByID (postID : string) : M result :=
  if decide (postID = EmptyString) then
    ret (None, Some (errors_New (required "post_id")))
  else
    r <- this ;;
    let url :=
      fmt_Sprintf "%s/file/%s?resource=%s&dataset=%s"
        [BaseURL r; postID; Resource r; Dataset r] in
    req <- http_NewRequest "GET" url None ;;
    match req with
    | inl err => ret (None, Some (Foreign err))
    | inr req =>
        let req :=
          withHeader (Header_Set "Accept" "application/octet-stream" (ReqHeader req)) req in
        res <- client_Do req ;;
        match res with
        | inl err => ret (None, Some (Foreign err))
        | inr body =>
            defer EvCloseBody
              (match Decode body with
               | (_, Some err) => ret (None, Some err)
               | (result, None) => ret (result, None)
               end)
        end
    end.

Definition warning : string := "Warning: matchedCount is greater than modifiedCount.".

Definition UpdatePostByID (postID : string) (updateOptions : gomap) : M result :=
  if decide (postID = EmptyString) then
    ret (None, Some (errors_New (required "post_id")))
  else if decide (updateOptions = None) then
    ret (None, Some (errors_New (required "update_options")))
  else
    r <- this ;;
    let url :=
      fmt_Sprintf "%s/%s?resource=%s&dataset=%s" [BaseURL r; postID; Resource r; Dataset r] in
    match json_Marshal
            (VMap (Some {[ "update" := VMap (Some {[ "$set" := VMap updateOptions ]}) ]}))
    with
    | inl err => ret (None, Some (Foreign err))
    | inr payload =>
        res <- makeRequest "PATCH" url (bytes_NewBuffer payload) ;;
        match res with
        | (_, Some err) => ret (None, Some err)
        | (resp, None) =>
            matched <- assert_float64 (index resp "matchedCount") ;;
            none <- (if float64_eq matched 0%Q then
                       modified <- assert_float64 (index resp "modifiedCount") ;;
                       ret (float64_eq modified 0%Q)
                     else ret false) ;;
            if (none : bool) then ret (None, Some ErrNoUpdatesMade)
            else
              matched <- assert_float64 (index resp "matchedCount") ;;
              modified <- assert_float64 (index resp "modifiedCount") ;;
              (if float64_gt matched modified then fmt_Println warning else ret tt) ;;;
              ret (resp, None)
        end
    end.

Definition UpdatePostByFilter (filterData updateOptions : gomap) : M result :=
  if decide (filterData = None) then
    ret (None, Some (errors_New (required "filter_data")))
  else if decide (updateOptions = None) then
    ret (None, Some (errors_New (required "update_options")))
  else
    r <- this ;;
    let url := fmt_Sprintf "%s?resource=%s&dataset=%s" [BaseURL r; Resource r; Dataset r] in
    match json_Marshal
            (VMap (Some {[ "filter" := VMap filterData;
                           "update" := VMap (Some {[ "$set" := VMap updateOptions ]}) ]}))
    with
    | inl err => ret (None, Some (Foreign err))
    | inr payload =>
        res <- makeRequest "PATCH" url (bytes_NewBuffer payload) ;;
        match res with
        | (_, Some err) => ret (None, Some err)
        | (resp, None) =>
            matched <- assert_float64 (index resp "matchedCount") ;;
            none <- (if float64_eq matched 0%Q then
                       modified <- assert_float64 (index resp "modifiedCount") ;;
                       ret (float64_eq modified 0%Q)
                     else ret false) ;;
            if (none : bool) then ret (None, Some ErrNoUpdatesMade)
            else
              matched <- assert_float64 (index resp "matchedCount") ;;
              modified <- assert_float64 (index resp "modifiedCount") ;;
              (if float64_gt matched modified then fmt_Println warning else ret tt) ;;;
              ret (resp, None)
        end
    end.

Definition DeletePostByID (postID : string) : M result :=
  if decide (postID = EmptyString) then
    ret (None, Some (errors_New (required "post_id")))
  else
    r <- this ;;
    let url :=
      fmt_Sprintf "%s/%s?resource=%s&dataset=%s" [BaseURL r; postID; Resource r; Dataset r] in
    res <- makeRequest "DELETE" url None ;;
    match res with
    | (_, Some err) => ret (None, Some err)
    | (resp, None) =>
        deleted <- assert_float64 (index resp "deletedCount") ;;
        if float64_eq deleted 0%Q then ret (None, Some ErrFailedDelete)
        else ret (resp, None)
    end.

Definition DeletePostByFilter (filterData : gomap) : M result :=
  if decide (filterData = None) then
    ret (None, Some (errors_New (required "filter_data")))
  else
    r <- this ;;
    let url := fmt_Sprintf "%s?resource=%s&dataset=%s" [BaseURL r; Resource r; Dataset r] in
    match json_Marshal (VMap (Some {[ "filter" := VMap filterData ]})) with
    | inl err => ret (None, Some (Foreign err))
    | inr payload =>
        res <- makeRequest "DELETE" url (bytes_NewBuffer payload) ;;
        match res with
        | (_, Some err) => ret (None, Some err)
        | (resp, None) =>
            deleted <- assert_float64 (index resp "deletedCount") ;;
            if float64_eq deleted 0%Q then ret (None, Some ErrFailedDelete)
            else ret (resp, None)
        end
    end.

(** * Vocabulary of the properties *)

(** ** Observing a call *)

Definition outcome_of {A} (x : outcome A * Racs * list event) : outcome A := x.1.1.
Definition client_of {A} (x : outcome A * Racs * list event) : Racs := x.1.2.
Definition trace_of {A} (x : outcome A * Racs * list event) : list event := x.2.

(** The requests that reached the network, in order. *)
Definition requests (t : list event) : list Request :=
  omap (λ e, match e with EvDo req => Some req | _ => None end) t.

(** The lines written to standard output, in order. *)
Definition printed (t : list event) : list string :=
  omap (λ e, match e with EvPrintln line => Some line | _ => None end) t.

(** The call whose trace is [t] sent a request which the world answered
    with a body that decoded, without error, into [resp]. *)
Definition decoded_response (w : World) (t : list event) (resp : gomap) : Prop :=
  ∃ req body, req ∈ requests t ∧ world_Do w req = inr body ∧ Decode body = (resp, None).

(** The request [makeRequest] builds from its arguments and the configured
    headers. *)
Definition built (r : Racs) (method url : string) (body : option payload) : Request :=
  {| Method := method; URL := url; Body := body; ReqHeader := range_Set (Headers r) ∅ |}.

(** What each operation does with the pair [makeRequest] hands back. *)
Definition pass (res : result) : M result :=
  match res with
  | (_, Some err) => ret (None, Some err)
  | (resp, None) => ret (resp, None)
  end.

Definition check_updated (res : result) : M result :=
  match res with
  | (_, Some err) => ret (None, Some err)
  | (resp, None) =>
      matched <- assert_float64 (index resp "matchedCount") ;;
      none <- (if float64_eq matched 0%Q then
                 modified <- assert_float64 (index resp "modifiedCount") ;;
                 ret (float64_eq modified 0%Q)
               else ret false) ;;
      if (none : bool) then ret (None, Some ErrNoUpdatesMade)
      else
        matched <- assert_float64 (index resp "matchedCount") ;;
        modified <- assert_float64 (index resp "modifiedCount") ;;
        (if float64_gt matched modified then fmt_Println warning else ret tt) ;;;
        ret (resp, None)
  end.

Definition check_deleted (res : result) : M result :=
  match res with
  | (_, Some err) => ret (None, Some err)
  | (resp, None) =>
      deleted <- assert_float64 (index resp "deletedCount") ;;
      if float64_eq deleted 0%Q then ret (None, Some ErrFailedDelete)
      else ret (resp, None)
  end.

(** A continuation that keeps off the network and leaves the client alone. *)
Definition quiet (k : result → M result) : Prop :=
  ∀ res w r, requests (trace_of (k res w r)) = [] ∧ client_of (k res w r) = r.

(** Whether a dynamic value is a [float64], that is, whether the type
    assertion [v.(float64)] succeeds. *)
Definition is_float64 (v : value) : bool :=
  match v with
  | VFloat64 _ => true
  | _ => false
  end.

(** The calls that delete, and the calls that update. *)
Inductive delete_call : M result → Prop :=
  | delete_by_id postID : delete_call (DeletePostByID postID)
  | delete_by_filter filterData : delete_call (DeletePostByFilter filterData).

Inductive update_call : M result → Prop :=
  | update_by_id postID updateOptions : update_call (UpdatePostByID postID updateOptions)
  | update_by_filter filterData updateOptions :
      update_call (UpdatePostByFilter filterData updateOptions).

(** ** Sample worlds and clients *)

(** A world where files open, requests are well formed and every request is
    answered by the document [doc]. *)
Definition served (doc : json) : World :=
  {| world_Open := λ _, None;
     world_Copy := λ _, inr "contents";
     world_NewRequest := λ _ _, None;
     world_Do := λ _, inr (Document doc) |}.

(** The same world, except that [http.NewRequest] refuses the URL [bad], as
    it refuses a URL it cannot parse. *)
Definition refusing (bad : string) (doc : json) : World :=
  {| world_Open := λ _, None;
     world_Copy := λ _, inr "contents";
     world_NewRequest := λ _ url,
       if String.eqb url bad then Some (UrlError "parse" url) else None;
     world_Do := λ _, inr (Document doc) |}.

(** The client [NewRacs("R", "D")] returns. *)
Definition client_RD : Racs :=
  {| Resource := "R"; Dataset := "D";
     Headers := {[ "Content-Type" := "application/json" ]};
     BaseURL := "https://racs.rest/v3" |}.

Definition update_counts (matched modified : Q) : json :=
  JObject {[ "matchedCount" := JNumber matched; "modifiedCount" := JNumber modified ]}.

Definition delete_count (deleted : Q) : json :=
  JObject {[ "deletedCount" := JNumber deleted ]}.

Definition returns_normally {A} (o : outcome A) : Prop := ∃ a, o = Returns a.

(** The defaults [ReadPostByFilter] substitutes. *)
Definition default_filter (filterData : value) : value :=
  match filterData with VNil => VMap (Some ∅) | _ => filterData end.
Definition default_sort (sort : value) : value :=
  match sort with VNil => VMapInt {[ "_created" := -1 ]} | _ => sort end.
Definition default_limit (limit : Z) : Z := if decide (limit = 0) then 1 else limit.

(** The URLs, spelled out. *)
Definition collection_url (r : Racs) : string :=
  BaseURL r +:+ "?resource=" +:+ Resource r +:+ "&dataset=" +:+ Dataset r.
Definition post_url (r : Racs) (postID : string) : string :=
  BaseURL r +:+ "/" +:+ postID +:+ "?resource=" +:+ Resource r +:+ "&dataset=" +:+ Dataset r.
Definition get_url (r : Racs) : string :=
  BaseURL r +:+ "/get?resource=" +:+ Resource r +:+ "&dataset=" +:+ Dataset r.
Definition file_url (r : Racs) (postID : string) : string :=
  BaseURL r +:+ "/file/" +:+ postID +:+ "?resource=" +:+ Resource r
  +:+ "&dataset=" +:+ Dataset r.

(** The documents of the request bodies. *)
Definition query_doc (filterData sort : value) (limit : Z) : json :=
  JObject {[ "filter" := encode filterData; "sort" := encode sort;
             "limit" := JNumber (inject_Z limit) ]}.

Definition set_doc (updateOptions : gmap string value) : json :=
  JObject {[ "update" := JObject {[ "$set" := encode (VMap (Some updateOptions)) ]} ]}.

Definition filter_set_doc (filterData updateOptions : gmap string value) : json :=
  JObject {[ "filter" := encode (VMap (Some filterData));
             "update" := JObject {[ "$set" := encode (VMap (Some updateOptions)) ]} ]}.

Definition default_query : json :=
  JObject {[ "filter" := JObject ∅;
             "sort" := JObject {[ "_created" := JNumber (-1) ]};
             "limit" := JNumber 1 ]}.

(** A call that was rejected on its arguments: it returns a validation error
    and a nil mapping, leaves the client alone and causes no event at all, so
    no file was opened and no request reached the network. *)
Definition rejected (x : outcome result * Racs * list event) (r : Racs) (msg : string)
  : Prop :=
  x = (Returns (None, Some (errors_New msg)), r, []).

(** The client after the caller has set one header. *)
Definition with_header (key val : string) (r : Racs) : Racs :=
  {| Resource := Resource r; Dataset := Dataset r;
     Headers := <[key := val]> (Headers r); BaseURL := BaseURL r |}.

(** What an operation returns once a response body is there. *)
Definition returned (answer : stream) : result :=
  match Decode answer with
  | (_, Some err) => (None, Some err)
  | (resp, None) => (resp, None)
  end.

(** The requests [CreateFile] and [ReadFileByID] build themselves. *)
Definition upload_request (r : Racs) (contents : string) : Request :=
  {| Method := "POST"; URL := collection_url r; Body := Some (RawBytes contents);
     ReqHeader := {[ "Content-Type" := ["multipart/form-data"] ]} |}.

Definition download_request (r : Racs) (postID : string) : Request :=
  {| Method := "GET"; URL := file_url r postID; Body := None;
     ReqHeader := {[ "Accept" := ["application/octet-stream"] ]} |}.

(** The nine exported operations. *)
Inductive operation : M result → Prop :=
  | op_CreatePost data : operation (CreatePost data)
  | op_CreateFile filePath : operation (CreateFile filePath)
  | op_ReadPostByID postID : operation (ReadPostByID postID)
  | op_ReadPostByFilter filterData sort limit :
      operation (ReadPostByFilter filterData sort limit)
  | op_ReadFileByID postID : operation (ReadFileByID postID)
  | op_UpdatePostByID postID updateOptions :
      operation (UpdatePostByID postID updateOptions)
  | op_UpdatePostByFilter filterData updateOptions :
      operation (UpdatePostByFilter filterData updateOptions)
  | op_DeletePostByID postID : operation (DeletePostByID postID)
  | op_DeletePostByFilter filterData : operation (DeletePostByFilter filterData).

(** What the three continuations have in common: they leave the client
    alone, emit nothing but possibly the warning line, hand an error on with
    a nil mapping, and never pair a mapping with an error. *)
Definition checker (k : result → M result) : Prop :=
  ∀ res w r,
    client_of (k res w r) = r ∧
    (trace_of (k res w r) = [] ∨ trace_of (k res w r) = [EvPrintln warning]) ∧
    (∀ e, res.2 = Some e → k res w r = (Returns (None, Some e), r, [])) ∧
    (∀ resp e, outcome_of (k res w r) = Returns (resp, Some e) → resp = None).

(** A URL made of the base URL, a path and the two query parameters. *)
Definition scoped (r : Racs) (url : string) : Prop :=
  ∃ path, url = BaseURL r +:+ path +:+ "?resource=" +:+ Resource r
                +:+ "&dataset=" +:+ Dataset r.

(** The response bodies closed during a call, and the answers received. *)
Definition closed_bodies (t : list event) : nat :=
  length (omap (λ e, match e with EvCloseBody => Some tt | _ => None end) t).

Definition answers (w : World) (t : list event) : list stream :=
  omap (λ req, match world_Do w req with inr answer => Some answer | inl _ => None end)
    (requests t).

(** The files opened and closed during a call, in order. *)
Definition file_events (t : list event) : list event :=
  omap (λ e, match e with EvOpen _ | EvCloseFile _ => Some e | _ => None end) t.

(** The operations that return what was decoded without looking at it. *)
Inductive unchecked_call : M result → Prop :=
  | unchecked_CreatePost data : unchecked_call (CreatePost data)
  | unchecked_CreateFile filePath : unchecked_call (CreateFile filePath)
  | unchecked_ReadPostByID postID : unchecked_call (ReadPostByID postID)
  | unchecked_ReadPostByFilter filterData sort limit :
      unchecked_call (ReadPostByFilter filterData sort limit)
  | unchecked_ReadFileByID postID : unchecked_call (ReadFileByID postID).

(** Continuations that emit nothing at all. *)
Definition silent (k : result → M result) : Prop := ∀ res w r, trace_of (k res w r) = [].

(** * Properties *)

(** ** The shared helper, run *)

Lemma makeRequest_run method url body w r :
  makeRequest method url body w r =
    match world_NewRequest w method url with
    | Some e => (Returns (None, Some (Foreign e)), r, [])
    | None =>
        match world_Do w (built r method url body) with
        | inl e => (Returns (None, Some (Foreign e)), r, [EvDo (built r method url body)])
        | inr answer =>
            (Returns (match Decode answer with
                      | (_, Some e) => (None, Some e)
                      | (resp, None) => (resp, None)
                      end),
             r, [EvDo (built r method url body); EvCloseBody])
        end
    end.
Proof.
  unfold makeRequest, bind, http_NewRequest, this, client_Do, defer, ret, built, withHeader.
  destruct (world_NewRequest w method url); [done|]. cbn [Method URL Body ReqHeader].
  destruct (world_Do w _); [done|].
  by destruct (Decode s) as [? [?|]].
Qed.

Lemma requests_app t1 t2 : requests (t1 ++ t2) = requests t1 ++ requests t2.
Proof. apply omap_app. Qed.

Lemma printed_app t1 t2 : printed (t1 ++ t2) = printed t1 ++ printed t2.
Proof. apply omap_app. Qed.

Lemma pass_quiet : quiet pass.
Proof. by intros [resp [err|]] w r. Qed.

Lemma check_deleted_quiet : quiet check_deleted.
Proof.
  intros [resp [err|]] w r; [done|].
  unfold check_deleted, bind.
  destruct (index resp "deletedCount"); try done.
  cbn. by destruct (float64_eq q 0).
Qed.

Lemma check_updated_quiet : quiet check_updated.
Proof.
  intros [resp [err|]] w r; [done|].
  unfold check_updated, bind.
  destruct (index resp "matchedCount") as [| | |mc| | | | |]; try done.
  destruct (index resp "modifiedCount") as [| | |md| | | | |];
    cbn; destruct (float64_eq mc 0); try done;
    cbn; destruct (float64_eq md 0); try done;
    cbn; by destruct (float64_gt mc md).
Qed.

Lemma float64_eq_zero (q : Q) : float64_eq q 0%Q = true ↔ (q == 0)%Q.
Proof. apply Qeq_bool_iff. Qed.

Lemma float64_gt_lt (x y : Q) : float64_gt x y = true ↔ (y < x)%Q.
Proof.
  unfold float64_gt. rewrite negb_true_iff, <- not_true_iff_false, Qle_bool_iff.
  split; [apply Qnot_le_lt | apply Qlt_not_le].
Qed.

(** The check after a delete, on a response whose count is a number. *)
Lemma check_deleted_run resp deleted w r :
  index resp "deletedCount" = VFloat64 deleted →
  check_deleted (resp, None) w r =
    (Returns (if float64_eq deleted 0%Q then (None, Some ErrFailedDelete) else (resp, None)),
     r, []).
Proof.
  intros Hix. unfold check_deleted, bind. rewrite Hix. cbn.
  by destruct (float64_eq deleted 0).
Qed.

(** The check after an update, on a response whose counts are numbers. *)
Lemma check_updated_run resp matched modified w r :
  index resp "matchedCount" = VFloat64 matched →
  index resp "modifiedCount" = VFloat64 modified →
  check_updated (resp, None) w r =
    if float64_eq matched 0%Q && float64_eq modified 0%Q
    then (Returns (None, Some ErrNoUpdatesMade), r, [])
    else (Returns (resp, None), r,
          if float64_gt matched modified then [EvPrintln warning] else []).
Proof.
  intros Hmc Hmd. unfold check_updated, bind. rewrite Hmc, Hmd. cbn.
  destruct (float64_eq matched 0); cbn;
    [destruct (float64_eq modified 0); cbn; [done|]|];
    by destruct (float64_gt matched modified).
Qed.

Lemma check_deleted_panics resp w r :
  is_float64 (index resp "deletedCount") = false →
  check_deleted (resp, None) w r = (Panics (index resp "deletedCount"), r, []).
Proof.
  intros Hix. unfold check_deleted, bind.
  by destruct (index resp "deletedCount").
Qed.

Lemma check_updated_panics resp w r :
  is_float64 (index resp "matchedCount") && is_float64 (index resp "modifiedCount") = false →
  ∃ v, check_updated (resp, None) w r = (Panics v, r, []) ∧ is_float64 v = false ∧
       (v = index resp "matchedCount" ∨ v = index resp "modifiedCount").
Proof.
  intros Hix. unfold check_updated, bind.
  destruct (index resp "matchedCount") as [| | |mc| | | | |] eqn:Hmc;
    try (eexists; split_and!; [reflexivity|done|by left]).
  destruct (index resp "modifiedCount") as [| | |md| | | | |] eqn:Hmd; try done;
    cbn; destruct (float64_eq mc 0); cbn; eexists; split_and!;
    try reflexivity; try done; by right.
Qed.

(** A call that goes through [makeRequest] and got a decoded response behaves
    as its continuation does on that response. *)
Lemma decoded_bind method url body (k : result → M result) w r resp :
  quiet k →
  decoded_response w (trace_of (bind (makeRequest method url body) k w r)) resp →
  bind (makeRequest method url body) k w r =
    match k (resp, None) w r with
    | (o, r', t) => (o, r', [EvDo (built r method url body); EvCloseBody] ++ t)
    end.
Proof.
  intros Hk (req & answer & Hin & Hdo & Hdec). revert Hin.
  unfold bind. rewrite makeRequest_run.
  destruct (world_NewRequest w method url) as [e|].
  - destruct (k _ w r) as [[o r'] t] eqn:Hrun.
    destruct (Hk (None, Some (Foreign e)) w r) as [Hq _]. rewrite Hrun in Hq.
    unfold trace_of in *. cbn in *. rewrite Hq. by intros ?%elem_of_nil.
  - destruct (world_Do w (built r method url body)) as [e|answer'] eqn:Hdo'.
    + destruct (k _ w r) as [[o r'] t] eqn:Hrun.
      destruct (Hk (None, Some (Foreign e)) w r) as [Hq _]. rewrite Hrun in Hq.
      unfold trace_of in *. cbn in *. rewrite Hq.
      intros ->%list_elem_of_singleton. congruence.
    + destruct (Decode answer') as [resp' err'] eqn:Hdec'.
      assert (req ∈ requests [EvDo (built r method url body)] → resp' = resp ∧ err' = None)
        as Hsame.
      { cbn. intros ->%list_elem_of_singleton. split; congruence. }
      destruct err' as [e|].
      * destruct (k _ w r) as [[o r'] t] eqn:Hrun.
        destruct (Hk (None, Some e) w r) as [Hq _]. rewrite Hrun in Hq.
        unfold trace_of in *. cbn in *. rewrite Hq.
        intros Hin. by destruct (Hsame Hin).
      * destruct (k (resp', None) w r) as [[o r'] t] eqn:Hrun.
        destruct (Hk (resp', None) w r) as [Hq _]. rewrite Hrun in Hq.
        unfold trace_of in *. cbn in *. rewrite Hq.
        intros Hin. destruct (Hsame Hin) as [-> _]. by rewrite Hrun.
Qed.

(** ** The operations, as argument checks around [makeRequest] *)

Lemma CreatePost_eq data :
  CreatePost data =
    if decide (data = None) then ret (None, Some (errors_New (required "data")))
    else
      r <- this ;;
      match json_Marshal (VMap data) with
      | inl err => ret (None, Some (Foreign err))
      | inr doc =>
          bind (makeRequest "POST"
                  (fmt_Sprintf "%s?resource=%s&dataset=%s" [BaseURL r; Resource r; Dataset r])
                  (bytes_NewBuffer doc)) pass
      end.
Proof. reflexivity. Qed.

Lemma UpdatePostByID_eq postID updateOptions :
  UpdatePostByID postID updateOptions =
    if decide (postID = EmptyString) then ret (None, Some (errors_New (required "post_id")))
    else if decide (updateOptions = None) then
      ret (None, Some (errors_New (required "update_options")))
    else
      r <- this ;;
      match json_Marshal
              (VMap (Some {[ "update" := VMap (Some {[ "$set" := VMap updateOptions ]}) ]}))
      with
      | inl err => ret (None, Some (Foreign err))
      | inr doc =>
          bind (makeRequest "PATCH"
                  (fmt_Sprintf "%s/%s?resource=%s&dataset=%s"
                     [BaseURL r; postID; Resource r; Dataset r])
                  (bytes_NewBuffer doc)) check_updated
      end.
Proof. reflexivity. Qed.

Lemma UpdatePostByFilter_eq filterData updateOptions :
  UpdatePostByFilter filterData updateOptions =
    if decide (filterData = None) then
      ret (None, Some (errors_New (required "filter_data")))
    else if decide (updateOptions = None) then
      ret (None, Some (errors_New (required "update_options")))
    else
      r <- this ;;
      match json_Marshal
              (VMap (Some {[ "filter" := VMap filterData;
                             "update" := VMap (Some {[ "$set" := VMap updateOptions ]}) ]}))
      with
      | inl err => ret (None, Some (Foreign err))
      | inr doc =>
          bind (makeRequest "PATCH"
                  (fmt_Sprintf "%s?resource=%s&dataset=%s" [BaseURL r; Resource r; Dataset r])
                  (bytes_NewBuffer doc)) check_updated
      end.
Proof. reflexivity. Qed.

Lemma DeletePostByID_eq postID :
  DeletePostByID postID =
    if decide (postID = EmptyString) then ret (None, Some (errors_New (required "post_id")))
    else
      r <- this ;;
      bind (makeRequest "DELETE"
              (fmt_Sprintf "%s/%s?resource=%s&dataset=%s"
                 [BaseURL r; postID; Resource r; Dataset r])
              None) check_deleted.
Proof. reflexivity. Qed.

Lemma DeletePostByFilter_eq filterData :
  DeletePostByFilter filterData =
    if decide (filterData = None) then
      ret (None, Some (errors_New (required "filter_data")))
    else
      r <- this ;;
      match json_Marshal (VMap (Some {[ "filter" := VMap filterData ]})) with
      | inl err => ret (None, Some (Foreign err))
      | inr doc =>
          bind (makeRequest "DELETE"
                  (fmt_Sprintf "%s?resource=%s&dataset=%s" [BaseURL r; Resource r; Dataset r])
                  (bytes_NewBuffer doc)) check_deleted
      end.
Proof. reflexivity. Qed.

(** Reading the receiver costs nothing: no event, no change. *)
Lemma this_bind {A} (k : Racs → M A) w r : bind this k w r = k r w r.
Proof. unfold bind, this. by destruct (k r w r) as [[o r'] t]. Qed.

(** A delete that got a decoded response is the check on that response,
    after one request. *)
Lemma delete_call_decoded call w r resp :
  delete_call call →
  decoded_response w (trace_of (call w r)) resp →
  ∃ req,
    call w r =
      match check_deleted (resp, None) w r with
      | (o, r', t) => (o, r', [EvDo req; EvCloseBody] ++ t)
      end.
Proof.
  intros [postID|filterData].
  - rewrite DeletePostByID_eq. case_decide.
    { intros (? & ? & []%elem_of_nil & _). }
    rewrite this_bind. intros Hdec. eexists.
    by apply decoded_bind; [apply check_deleted_quiet|].
  - rewrite DeletePostByFilter_eq. case_decide.
    { intros (? & ? & []%elem_of_nil & _). }
    rewrite this_bind. destruct (json_Marshal _).
    { intros (? & ? & []%elem_of_nil & _). }
    intros Hdec. eexists.
    by apply decoded_bind; [apply check_deleted_quiet|].
Qed.

Lemma update_call_decoded call w r resp :
  update_call call →
  decoded_response w (trace_of (call w r)) resp →
  ∃ req,
    call w r =
      match check_updated (resp, None) w r with
      | (o, r', t) => (o, r', [EvDo req; EvCloseBody] ++ t)
      end.
Proof.
  intros [postID updateOptions|filterData updateOptions].
  - rewrite UpdatePostByID_eq. repeat case_decide;
      try by intros (? & ? & []%elem_of_nil & _).
    rewrite this_bind. destruct (json_Marshal _).
    { intros (? & ? & []%elem_of_nil & _). }
    intros Hdec. eexists.
    by apply decoded_bind; [apply check_updated_quiet|].
  - rewrite UpdatePostByFilter_eq. repeat case_decide;
      try by intros (? & ? & []%elem_of_nil & _).
    rewrite this_bind. destruct (json_Marshal _).
    { intros (? & ? & []%elem_of_nil & _). }
    intros Hdec. eexists.
    by apply decoded_bind; [apply check_updated_quiet|].
Qed.

(** ** Response checks of the mutating operations *)

(** C1. An update call (by id or by filter) whose decoded response has numeric
    matchedCount and modifiedCount returns; its error is the "no updates were
    made" error exactly when both counts are zero, and then nothing else is
    returned; otherwise it returns the decoded response and no error.  When
    matchedCount exceeds modifiedCount it prints the warning line and still
    returns no error; when both counts are equal and positive it prints
    nothing. *)
Theorem update_counts_check (call : M result) (w : World) (r : Racs)
    (resp : gomap) (matched modified : Q) :
  update_call call →
  decoded_response w (trace_of (call w r)) resp →
  index resp "matchedCount" = VFloat64 matched →
  index resp "modifiedCount" = VFloat64 modified →
  ∃ res,
    outcome_of (call w r) = Returns res ∧
    (res.2 = Some ErrNoUpdatesMade ↔ (matched == 0 ∧ modified == 0)%Q) ∧
    Error ErrNoUpdatesMade = "no updates were made" ∧
    ((matched == 0 ∧ modified == 0)%Q → res = (None, Some ErrNoUpdatesMade)) ∧
    (¬ (matched == 0 ∧ modified == 0)%Q → res = (resp, None)) ∧
    ((modified < matched)%Q →
       res = (resp, None) ∧ printed (trace_of (call w r)) = [warning]) ∧
    ((matched == modified ∧ 0 < matched)%Q →
       res = (resp, None) ∧ printed (trace_of (call w r)) = []).
Proof.
  intros Hcall Hdec Hmc Hmd.
  destruct (update_call_decoded call w r resp Hcall Hdec) as [req ->].
  rewrite (check_updated_run resp matched modified) by done.
  pose proof (float64_eq_zero matched) as Hz1.
  pose proof (float64_eq_zero modified) as Hz2.
  pose proof (float64_gt_lt matched modified) as Hgt.
  destruct (float64_eq matched 0 && float64_eq modified 0) eqn:Hzero.
  - apply andb_true_iff in Hzero as [E1%Hz1 E2%Hz2].
    eexists; split; [reflexivity|]. cbn [fst snd trace_of].
    split_and!; try done; intros; exfalso; lra.
  - assert (¬ (matched == 0 ∧ modified == 0)%Q) as Hnz.
    { rewrite <- Hz1, <- Hz2, <- andb_true_iff. congruence. }
    eexists; split; [reflexivity|]. cbn [fst snd trace_of].
    split_and!; try done.
    + intros Hlt%Hgt. by rewrite Hlt.
    + intros [Heq _]. destruct (float64_gt matched modified); [|done].
      destruct Hgt as [Hgt _]. specialize (Hgt eq_refl). lra.
Qed.

(** C2. A delete call (by id or by filter) whose decoded response has a
    numeric deletedCount returns; its error is the "failed to delete post"
    error exactly when the count is zero, and the result mapping is then nil;
    for any other count, in particular for a count of at least one, it
    returns the decoded response unchanged and no error. *)
Theorem delete_count_check (call : M result) (w : World) (r : Racs)
    (resp : gomap) (deleted : Q) :
  delete_call call →
  decoded_response w (trace_of (call w r)) resp →
  index resp "deletedCount" = VFloat64 deleted →
  ∃ res,
    outcome_of (call w r) = Returns res ∧
    (res.2 = Some ErrFailedDelete ↔ (deleted == 0)%Q) ∧
    Error ErrFailedDelete = "failed to delete post" ∧
    ((deleted == 0)%Q → res = (None, Some ErrFailedDelete)) ∧
    (¬ (deleted == 0)%Q → res = (resp, None)) ∧
    ((1 <= deleted)%Q → res = (resp, None)).
Proof.
  intros Hcall Hdec Hix.
  destruct (delete_call_decoded call w r resp Hcall Hdec) as [req ->].
  rewrite (check_deleted_run resp deleted) by done.
  pose proof (float64_eq_zero deleted) as Hz.
  destruct (float64_eq deleted 0) eqn:Hzero.
  - destruct Hz as [Hz _]. specialize (Hz eq_refl).
    eexists; split; [reflexivity|]. cbn [fst snd].
    split_and!; try done. intros; exfalso; lra.
  - assert (¬ (deleted == 0)%Q) as Hnz by (rewrite <- Hz; congruence).
    eexists; split; [reflexivity|]. cbn [fst snd].
    split_and!; done.
Qed.

Lemma update_counts_check_witness :
  ∃ res,
    outcome_of (UpdatePostByID "abc" (Some {[ "x" := VInt 1 ]})
                  (served (update_counts 2 1)) client_RD) = Returns res ∧
    res.2 = None ∧
    printed (trace_of (UpdatePostByID "abc" (Some {[ "x" := VInt 1 ]})
                         (served (update_counts 2 1)) client_RD)) = [warning].
Proof.
  destruct (update_counts_check
              (UpdatePostByID "abc" (Some {[ "x" := VInt 1 ]}))
              (served (update_counts 2 1)) client_RD
              (Some {[ "matchedCount" := VFloat64 2; "modifiedCount" := VFloat64 1 ]}) 2 1)
    as (res & Hout & _ & _ & _ & _ & Hwarn & _).
  - constructor.
  - exists (built client_RD "PATCH" "https://racs.rest/v3/abc?resource=R&dataset=D"
              (bytes_NewBuffer
                 (encode (VMap (Some {[ "update" :=
                    VMap (Some {[ "$set" := VMap (Some {[ "x" := VInt 1 ]}) ]}) ]}))))),
           (Document (update_counts 2 1)).
    split; [vm_compute; left | split; vm_compute; reflexivity].
  - vm_compute; reflexivity.
  - vm_compute; reflexivity.
  - exists res. destruct Hwarn as [-> Hprinted]; [reflexivity|]. by split_and!.
Defined.

Lemma delete_count_check_witness :
  ∃ res,
    outcome_of (DeletePostByID "abc" (served (delete_count 0)) client_RD) = Returns res ∧
    res = (None, Some ErrFailedDelete).
Proof.
  destruct (delete_count_check (DeletePostByID "abc") (served (delete_count 0)) client_RD
              (Some {[ "deletedCount" := VFloat64 0 ]}) 0)
    as (res & Hout & _ & _ & Hzero & _).
  - constructor.
  - exists (built client_RD "DELETE" "https://racs.rest/v3/abc?resource=R&dataset=D" None),
           (Document (delete_count 0)).
    split; [vm_compute; left | split; vm_compute; reflexivity].
  - vm_compute; reflexivity.
  - exists res. split; [done|]. by apply Hzero.
Defined.

(** ** Count fields that are missing or are not numbers *)

Lemma is_float64_true v : is_float64 v = true → ∃ q, v = VFloat64 q.
Proof. destruct v; try done. by eexists. Qed.

(** C3, as stated, fails.  The service answers an update with the empty
    object: the answer decodes without error into an empty mapping, and the
    call does not return, it panics on the type assertion of the missing
    matchedCount.  Likewise a delete answered with a deletedCount that is a
    string panics. *)
Lemma optional_counts_counterexample :
  decoded_response (served (JObject ∅))
    (trace_of (UpdatePostByID "abc" (Some {[ "x" := VInt 1 ]}) (served (JObject ∅)) client_RD))
    (Some ∅) ∧
  ¬ returns_normally
      (outcome_of (UpdatePostByID "abc" (Some {[ "x" := VInt 1 ]})
                     (served (JObject ∅)) client_RD)) ∧
  outcome_of (DeletePostByID "abc" (served (JObject {[ "deletedCount" := JString "3" ]}))
                client_RD) = Panics (VString "3").
Proof.
  split_and!.
  - exists (built client_RD "PATCH" "https://racs.rest/v3/abc?resource=R&dataset=D"
              (bytes_NewBuffer
                 (encode (VMap (Some {[ "update" :=
                    VMap (Some {[ "$set" := VMap (Some {[ "x" := VInt 1 ]}) ]}) ]}))))),
           (Document (JObject ∅)).
    split; [vm_compute; left | split; vm_compute; reflexivity].
  - intros [res Hres]. vm_compute in Hres. discriminate.
  - vm_compute. reflexivity.
Qed.

(** C3, amended.  The count fields are read with unchecked type assertions,
    so they are required: an update call that got a decoded response returns
    normally exactly when both matchedCount and modifiedCount are present and
    numeric, a delete call exactly when deletedCount is; otherwise the call
    panics on the first field that is missing or is not a number. *)
Theorem counts_are_asserted (call : M result) (w : World) (r : Racs) (resp : gomap) :
  decoded_response w (trace_of (call w r)) resp →
  (update_call call →
     (returns_normally (outcome_of (call w r)) ↔
        is_float64 (index resp "matchedCount") && is_float64 (index resp "modifiedCount")
        = true) ∧
     (is_float64 (index resp "matchedCount") && is_float64 (index resp "modifiedCount")
      = false →
        ∃ v, outcome_of (call w r) = Panics v ∧ is_float64 v = false ∧
             (v = index resp "matchedCount" ∨ v = index resp "modifiedCount"))) ∧
  (delete_call call →
     (returns_normally (outcome_of (call w r)) ↔
        is_float64 (index resp "deletedCount") = true) ∧
     (is_float64 (index resp "deletedCount") = false →
        outcome_of (call w r) = Panics (index resp "deletedCount"))).
Proof.
  intros Hdec. split; intros Hcall.
  - destruct (update_call_decoded call w r resp Hcall Hdec) as [req ->].
    destruct (is_float64 (index resp "matchedCount") &&
              is_float64 (index resp "modifiedCount")) eqn:Hnum.
    + apply andb_true_iff in Hnum as [[mc Hmc]%is_float64_true [md Hmd]%is_float64_true].
      rewrite (check_updated_run resp mc md) by done.
      split; [|done]. split; [done|]. intros _.
      destruct (_ && _); by eexists.
    + destruct (check_updated_panics resp w r Hnum) as (v & -> & Hv & Hwhich).
      split.
      * split; [|done]. by intros [res Hres].
      * intros _. by exists v.
  - destruct (delete_call_decoded call w r resp Hcall Hdec) as [req ->].
    destruct (is_float64 (index resp "deletedCount")) eqn:Hnum.
    + apply is_float64_true in Hnum as [q Hq].
      rewrite (check_deleted_run resp q) by done.
      split; [|done]. split; [done|]. intros _. by eexists.
    + rewrite check_deleted_panics by done.
      split; [|done]. split; [|done]. by intros [res Hres].
Qed.

Lemma counts_are_asserted_witness :
  outcome_of (DeletePostByID "abc" (served (JObject ∅)) client_RD) = Panics VNil.
Proof.
  destruct (counts_are_asserted (DeletePostByID "abc") (served (JObject ∅)) client_RD
              (Some ∅)) as [_ Hdelete].
  - exists (built client_RD "DELETE" "https://racs.rest/v3/abc?resource=R&dataset=D" None),
           (Document (JObject ∅)).
    split; [vm_compute; left | split; vm_compute; reflexivity].
  - destruct Hdelete as [_ Hpanics]; [constructor|].
    apply Hpanics. reflexivity.
Defined.

(** ** Construction *)

(** C4. [NewRacs] returns an error exactly when the resource or the dataset
    is the empty string, and the error is then a validation error with no
    client; for a non-empty resource and dataset it returns, without error,
    the client for them whose base URL is https://racs.rest/v3 and whose
    headers are the single entry Content-Type: application/json. *)
Theorem NewRacs_validates (resource dataset : string) :
  ((NewRacs resource dataset).2 ≠ None ↔ resource = EmptyString ∨ dataset = EmptyString) ∧
  (resource = EmptyString ∨ dataset = EmptyString →
     ∃ e, NewRacs resource dataset = (None, Some e) ∧ is_validation e = true) ∧
  (resource ≠ EmptyString ∧ dataset ≠ EmptyString →
     ∃ r, NewRacs resource dataset = (Some r, None) ∧
          Resource r = resource ∧ Dataset r = dataset ∧
          BaseURL r = "https://racs.rest/v3" ∧
          Headers r = {[ "Content-Type" := "application/json" ]} ∧
          map_to_list (Headers r) = [("Content-Type", "application/json")]).
Proof.
  unfold NewRacs.
  destruct (decide (resource = EmptyString)) as [Hres|Hres];
    [|destruct (decide (dataset = EmptyString)) as [Hdat|Hdat]]; cbn.
  - split_and!.
    + split; [by left | done].
    + intros _. by eexists.
    + by intros [? _].
  - split_and!.
    + split; [by right | done].
    + intros _. by eexists.
    + by intros [_ ?].
  - split_and!.
    + split; [done | by intros [?|?]].
    + by intros [?|?].
    + intros _. eexists. split_and!; reflexivity.
Qed.

Lemma NewRacs_validates_witness :
  NewRacs "R" "D" = (Some client_RD, None).
Proof.
  destruct (NewRacs_validates "R" "D") as (_ & _ & Hok).
  destruct Hok as (r & Heq & Hres & Hdat & Hurl & Hhdr & _); [done|].
  rewrite Heq. clear Heq.
  destruct r as [res dat hdr url]; cbn in *. by subst.
Defined.

(** ** Requests *)

Lemma ReadPostByFilter_eq filterData sort limit :
  ReadPostByFilter filterData sort limit =
    (r <- this ;;
     match json_Marshal
             (VMap (Some {[ "filter" := default_filter filterData;
                            "sort" := default_sort sort;
                            "limit" := VInt (default_limit limit) ]}))
     with
     | inl err => ret (None, Some (Foreign err))
     | inr doc =>
         bind (makeRequest "POST"
                 (fmt_Sprintf "%s/get?resource=%s&dataset=%s"
                    [BaseURL r; Resource r; Dataset r])
                 (bytes_NewBuffer doc)) pass
     end).
Proof. reflexivity. Qed.

Lemma ReadPostByID_eq postID :
  ReadPostByID postID =
    if decide (postID = EmptyString) then ret (None, Some (errors_New (required "post_id")))
    else
      r <- this ;;
      bind (makeRequest "GET"
              (fmt_Sprintf "%s/%s?resource=%s&dataset=%s"
                 [BaseURL r; postID; Resource r; Dataset r])
              None) pass.
Proof. reflexivity. Qed.

Lemma append_empty (s : string) : s +:+ EmptyString = s.
Proof.
  induction s as [|c s IH]; [done|].
  change (String c (s +:+ EmptyString) = String c s). by rewrite IH.
Qed.

Lemma Sprintf_collection r :
  fmt_Sprintf "%s?resource=%s&dataset=%s" [BaseURL r; Resource r; Dataset r]
  = collection_url r.
Proof. cbn. by rewrite append_empty. Qed.

Lemma Sprintf_post r postID :
  fmt_Sprintf "%s/%s?resource=%s&dataset=%s" [BaseURL r; postID; Resource r; Dataset r]
  = post_url r postID.
Proof. cbn. by rewrite append_empty. Qed.

Lemma Sprintf_get r :
  fmt_Sprintf "%s/get?resource=%s&dataset=%s" [BaseURL r; Resource r; Dataset r]
  = get_url r.
Proof. cbn. by rewrite append_empty. Qed.

Lemma Sprintf_file r postID :
  fmt_Sprintf "%s/file/%s?resource=%s&dataset=%s" [BaseURL r; postID; Resource r; Dataset r]
  = file_url r postID.
Proof. cbn. by rewrite append_empty. Qed.

(** What a call through [makeRequest] puts on the network: the one request
    built from its arguments, unless [http.NewRequest] refuses them. *)
Lemma requests_through method url body (k : result → M result) w r :
  quiet k →
  requests (trace_of (bind (makeRequest method url body) k w r)) =
    match world_NewRequest w method url with
    | Some _ => []
    | None => [built r method url body]
    end.
Proof.
  intros Hk. unfold bind. rewrite makeRequest_run.
  destruct (world_NewRequest w method url) as [e|].
  - destruct (Hk (None, Some (Foreign e)) w r) as [Hq _].
    destruct (k _ w r) as [[o r'] t]. apply Hq.
  - destruct (world_Do w _) as [e|answer].
    + destruct (Hk (None, Some (Foreign e)) w r) as [Hq _].
      destruct (k _ w r) as [[o r'] t]. unfold trace_of in *. cbn in *. by rewrite Hq.
    + match goal with |- context [k ?x w r] => destruct (Hk x w r) as [Hq _];
        destruct (k x w r) as [[o r'] t] end.
      unfold trace_of in *. cbn in *. by rewrite Hq.
Qed.

(** [json.Marshal] accepts a map exactly when it accepts every element. *)
Lemma supported_map (m : gmap string value) :
  supported (VMap (Some m)) = true ↔ ∀ k v, m !! k = Some v → supported v = true.
Proof.
  change (supported (VMap (Some m)))
    with (map_fold (λ (_ : string) x acc, supported x && acc) true m).
  induction m as [|k v m Hk IH] using map_ind.
  - rewrite map_fold_empty. split; [|done]. by intros _ k v ?%lookup_empty_Some.
  - rewrite map_fold_insert_L; [| |done].
    + rewrite andb_true_iff, IH. split.
      * intros [Hv Hm] k' v'. rewrite lookup_insert_Some.
        intros [[_ <-]|[_ Hk']]; [done|]. by apply (Hm k').
      * intros Hall. split.
        -- apply (Hall k). by rewrite lookup_insert_eq.
        -- intros k' v' Hk'. apply (Hall k'). rewrite lookup_insert_ne; [done|].
           intros ->. congruence.
    + intros j1 j2 z1 z2 y _ _ _. by rewrite !andb_assoc, (andb_comm (supported z1)).
Qed.

Lemma supported_singleton k v : supported (VMap (Some {[ k := v ]})) = supported v.
Proof.
  apply eq_true_iff_eq. rewrite supported_map. split.
  - intros Hall. apply (Hall k). by rewrite lookup_singleton_eq.
  - by intros Hv k' v' [_ <-]%lookup_singleton_Some.
Qed.

Lemma supported_insert k v (m : gmap string value) :
  supported v = true → supported (VMap (Some m)) = true →
  supported (VMap (Some (<[k := v]> m))) = true.
Proof.
  rewrite !supported_map. intros Hv Hm k' v'. rewrite lookup_insert_Some.
  intros [[_ <-]|[_ Hk']]; [done|]. by apply (Hm k').
Qed.

Lemma supported_insert_inv k v (m : gmap string value) :
  supported (VMap (Some (<[k := v]> m))) = true → supported v = true.
Proof. rewrite supported_map. intros Hall. apply (Hall k). by rewrite lookup_insert_eq. Qed.

Lemma encode_map (m : gmap string value) : encode (VMap (Some m)) = JObject (encode <$> m).
Proof. reflexivity. Qed.

Lemma Marshal_query filterData sort limit :
  json_Marshal (VMap (Some {[ "filter" := filterData; "sort" := sort; "limit" := VInt limit ]}))
  = if supported filterData && supported sort
    then inr (query_doc filterData sort limit)
    else inl UnsupportedTypeError.
Proof.
  unfold json_Marshal, query_doc. rewrite encode_map, !fmap_insert, map_fmap_singleton.
  destruct (supported filterData) eqn:Hf; [destruct (supported sort) eqn:Hs|]; cbn [andb].
  - rewrite supported_insert; [done|done|].
    by apply supported_insert; [|rewrite supported_singleton].
  - destruct (supported (VMap _)) eqn:Hall; [|done].
    apply supported_map with (k := "sort") (v := sort) in Hall; [congruence|done].
  - destruct (supported (VMap _)) eqn:Hall; [|done].
    apply supported_insert_inv in Hall. congruence.
Qed.

Lemma Marshal_set (updateOptions : gmap string value) :
  json_Marshal (VMap (Some {[ "update" := VMap (Some {[ "$set" := VMap (Some updateOptions) ]}) ]}))
  = if supported (VMap (Some updateOptions))
    then inr (set_doc updateOptions)
    else inl UnsupportedTypeError.
Proof.
  unfold json_Marshal, set_doc. rewrite !supported_singleton.
  by rewrite !encode_map, !map_fmap_singleton.
Qed.

Lemma Marshal_filter_set (filterData updateOptions : gmap string value) :
  json_Marshal
    (VMap (Some {[ "filter" := VMap (Some filterData);
                   "update" := VMap (Some {[ "$set" := VMap (Some updateOptions) ]}) ]}))
  = if supported (VMap (Some filterData)) && supported (VMap (Some updateOptions))
    then inr (filter_set_doc filterData updateOptions)
    else inl UnsupportedTypeError.
Proof.
  unfold json_Marshal, filter_set_doc.
  rewrite (encode_map (<[_ := _]> _)), !fmap_insert, !map_fmap_singleton.
  destruct (supported (VMap (Some filterData))) eqn:Hf;
    [destruct (supported (VMap (Some updateOptions))) eqn:Hu|]; cbn [andb].
  - rewrite supported_insert; [done|done|]. by rewrite !supported_singleton.
  - destruct (supported (VMap (Some (<[_ := _]> _)))) eqn:Hall; [|done].
    apply supported_map
      with (k := "update") (v := VMap (Some {[ "$set" := VMap (Some updateOptions) ]}))
      in Hall; [|done].
    rewrite !supported_singleton in Hall. congruence.
  - destruct (supported (VMap (Some (<[_ := _]> _)))) eqn:Hall; [|done].
    apply supported_insert_inv in Hall. congruence.
Qed.

Lemma ReadPostByFilter_requests filterData sort limit w r :
  requests (trace_of (ReadPostByFilter filterData sort limit w r)) =
    if supported (default_filter filterData) && supported (default_sort sort) then
      match world_NewRequest w "POST" (get_url r) with
      | Some _ => []
      | None =>
          [built r "POST" (get_url r)
             (Some (JSONText (query_doc (default_filter filterData) (default_sort sort)
                                (default_limit limit))))]
      end
    else [].
Proof.
  rewrite ReadPostByFilter_eq, this_bind, Marshal_query, Sprintf_get.
  destruct (_ && _); [|done].
  apply requests_through, pass_quiet.
Qed.

(** C5. [ReadPostByFilter(nil, nil, 0)] marshals the payload with filter {},
    sort {_created: -1} and limit 1, and hands it to [makeRequest] as a POST
    to {base}/get?resource=..&dataset=..: that request, carrying the
    configured headers, is the one request the call sends (none at all when
    [http.NewRequest] refuses the URL). *)
Theorem ReadPostByFilter_defaults (w : World) (r : Racs) :
  json_Marshal
    (VMap (Some {[ "filter" := VMap (Some ∅);
                   "sort" := VMapInt {[ "_created" := -1 ]};
                   "limit" := VInt 1 ]})) = inr default_query ∧
  ReadPostByFilter VNil VNil 0 w r =
    bind (makeRequest "POST" (get_url r) (Some (JSONText default_query))) pass w r ∧
  get_url r = BaseURL r +:+ "/get?resource=" +:+ Resource r +:+ "&dataset=" +:+ Dataset r ∧
  requests (trace_of (ReadPostByFilter VNil VNil 0 w r)) =
    match world_NewRequest w "POST" (get_url r) with
    | Some _ => []
    | None =>
        [ {| Method := "POST"; URL := get_url r;
             Body := Some (JSONText default_query);
             ReqHeader := range_Set (Headers r) ∅ |} ]
    end.
Proof.
  split_and!.
  - rewrite Marshal_query. reflexivity.
  - rewrite ReadPostByFilter_eq, this_bind, Marshal_query, Sprintf_get. reflexivity.
  - reflexivity.
  - rewrite ReadPostByFilter_requests. reflexivity.
Qed.

Lemma UpdatePostByID_requests postID (updateOptions : gmap string value) w r :
  postID ≠ EmptyString →
  requests (trace_of (UpdatePostByID postID (Some updateOptions) w r)) =
    if supported (VMap (Some updateOptions)) then
      match world_NewRequest w "PATCH" (post_url r postID) with
      | Some _ => []
      | None => [built r "PATCH" (post_url r postID) (Some (JSONText (set_doc updateOptions)))]
      end
    else [].
Proof.
  intros Hid. rewrite UpdatePostByID_eq. repeat case_decide; try done.
  rewrite this_bind, Marshal_set, Sprintf_post.
  destruct (supported _); [|done].
  apply requests_through, check_updated_quiet.
Qed.

Lemma UpdatePostByFilter_requests (filterData updateOptions : gmap string value) w r :
  requests (trace_of (UpdatePostByFilter (Some filterData) (Some updateOptions) w r)) =
    if supported (VMap (Some filterData)) && supported (VMap (Some updateOptions)) then
      match world_NewRequest w "PATCH" (collection_url r) with
      | Some _ => []
      | None =>
          [built r "PATCH" (collection_url r)
             (Some (JSONText (filter_set_doc filterData updateOptions)))]
      end
    else [].
Proof.
  rewrite UpdatePostByFilter_eq. repeat case_decide; try done.
  rewrite this_bind, Marshal_filter_set, Sprintf_collection.
  destruct (_ && _); [|done].
  apply requests_through, check_updated_quiet.
Qed.

(** C6, as stated, fails: not every call with a non-empty id and a non-nil
    update mapping sends a PATCH.  With the id 50% the URL is
    https://racs.rest/v3/50%?resource=R&dataset=D, which [http.NewRequest]
    refuses (a percent sign that starts no escape): the call returns that
    error and nothing is sent.  With an update mapping that holds a channel
    [json.Marshal] fails: either update returns that error and nothing is
    sent. *)
Lemma update_requests_counterexample :
  UpdatePostByID "50%" (Some {[ "x" := VInt 1 ]})
    (refusing "https://racs.rest/v3/50%?resource=R&dataset=D" (update_counts 1 1)) client_RD
  = (Returns (None, Some (Foreign (UrlError "parse"
                                     "https://racs.rest/v3/50%?resource=R&dataset=D"))),
     client_RD, []) ∧
  UpdatePostByID "abc" (Some {[ "callback" := VChan ]}) (served (update_counts 1 1)) client_RD
  = (Returns (None, Some (Foreign UnsupportedTypeError)), client_RD, []) ∧
  UpdatePostByFilter (Some ∅) (Some {[ "callback" := VChan ]})
    (served (update_counts 1 1)) client_RD
  = (Returns (None, Some (Foreign UnsupportedTypeError)), client_RD, []).
Proof. split_and!; vm_compute; reflexivity. Qed.

(** C6, amended.  For a non-empty id and a non-nil update mapping,
    [UpdatePostByID] sends exactly one request when [json.Marshal] accepts the
    mapping and [http.NewRequest] accepts the URL: a PATCH to
    {base}/{id}?resource=..&dataset=.. whose body is the document
    {update: {$set: update}}, an object with the single key update; it sends
    nothing otherwise.  For a non-nil filter and a non-nil update mapping,
    [UpdatePostByFilter] sends exactly one request when [json.Marshal] accepts
    both mappings and [http.NewRequest] accepts the URL: a PATCH to
    {base}?resource=..&dataset=.. whose body is the document
    {filter, update: {$set: update}}; it sends nothing otherwise.  Each
    operation is stated on its own, for every world. *)
Theorem update_requests (w : World) (r : Racs) (postID : string)
    (filterData updateOptions : gmap string value) :
  (postID ≠ EmptyString →
   requests (trace_of (UpdatePostByID postID (Some updateOptions) w r)) =
     if supported (VMap (Some updateOptions)) then
       match world_NewRequest w "PATCH"
               (BaseURL r +:+ "/" +:+ postID +:+ "?resource=" +:+ Resource r
                +:+ "&dataset=" +:+ Dataset r)
       with
       | Some _ => []
       | None =>
           [ {| Method := "PATCH";
                URL := BaseURL r +:+ "/" +:+ postID +:+ "?resource=" +:+ Resource r
                       +:+ "&dataset=" +:+ Dataset r;
                Body := Some (JSONText
                          (JObject {[ "update" :=
                             JObject {[ "$set" := encode (VMap (Some updateOptions)) ]} ]}));
                ReqHeader := range_Set (Headers r) ∅ |} ]
       end
     else []) ∧
  requests (trace_of (UpdatePostByFilter (Some filterData) (Some updateOptions) w r)) =
    (if supported (VMap (Some filterData)) && supported (VMap (Some updateOptions)) then
       match world_NewRequest w "PATCH"
               (BaseURL r +:+ "?resource=" +:+ Resource r +:+ "&dataset=" +:+ Dataset r)
       with
       | Some _ => []
       | None =>
           [ {| Method := "PATCH";
                URL := BaseURL r +:+ "?resource=" +:+ Resource r
                       +:+ "&dataset=" +:+ Dataset r;
                Body := Some (JSONText
                          (JObject {[ "filter" := encode (VMap (Some filterData));
                                      "update" :=
                             JObject {[ "$set" := encode (VMap (Some updateOptions)) ]} ]}));
                ReqHeader := range_Set (Headers r) ∅ |} ]
       end
     else []) ∧
  ({[ "update" := JObject {[ "$set" := encode (VMap (Some updateOptions)) ]} ]}
     : gmap string json) !! "filter" = None.
Proof.
  split_and!.
  - intros Hid. by rewrite UpdatePostByID_requests.
  - by rewrite UpdatePostByFilter_requests.
  - done.
Qed.

Lemma update_requests_witness :
  requests (trace_of (UpdatePostByID "abc" (Some {[ "x" := VInt 1 ]})
                        (served (update_counts 1 1)) client_RD)) =
    [ {| Method := "PATCH";
         URL := "https://racs.rest/v3/abc?resource=R&dataset=D";
         Body := Some (JSONText
                   (JObject {[ "update" :=
                      JObject {[ "$set" := JObject {[ "x" := JNumber 1 ]} ]} ]}));
         ReqHeader := {[ "Content-Type" := ["application/json"] ]} |} ] ∧
  requests (trace_of (UpdatePostByFilter (Some {[ "f" := VString "v" ]})
                        (Some {[ "x" := VInt 1 ]})
                        (served (update_counts 1 1)) client_RD)) =
    [ {| Method := "PATCH";
         URL := "https://racs.rest/v3?resource=R&dataset=D";
         Body := Some (JSONText
                   (JObject {[ "filter" := JObject {[ "f" := JString "v" ]};
                               "update" :=
                      JObject {[ "$set" := JObject {[ "x" := JNumber 1 ]} ]} ]}));
         ReqHeader := {[ "Content-Type" := ["application/json"] ]} |} ].
Proof.
  destruct (update_requests (served (update_counts 1 1)) client_RD "abc"
              {[ "f" := VString "v" ]} {[ "x" := VInt 1 ]}) as (Hid & Hfilter & _).
  split.
  - rewrite Hid by done. vm_compute. reflexivity.
  - rewrite Hfilter. vm_compute. reflexivity.
Defined.

(** ** Validation *)

Lemma rejected_no_request x r msg : rejected x r msg → requests (trace_of x) = [].
Proof. by intros ->. Qed.

(** C8. Each operation called without a required input (nil data, empty file
    path, empty id, nil filter, nil update mapping) returns its validation
    error at once: the trace of the call is empty, so nothing was sent. *)
Theorem validation_before_network (w : World) (r : Racs) :
  rejected (CreatePost None w r) r (required "data") ∧
  rejected (CreateFile EmptyString w r) r (required "file_path") ∧
  rejected (ReadPostByID EmptyString w r) r (required "post_id") ∧
  rejected (ReadFileByID EmptyString w r) r (required "post_id") ∧
  (∀ updateOptions,
     rejected (UpdatePostByID EmptyString updateOptions w r) r (required "post_id")) ∧
  (∀ postID, postID ≠ EmptyString →
     rejected (UpdatePostByID postID None w r) r (required "update_options")) ∧
  rejected (DeletePostByID EmptyString w r) r (required "post_id") ∧
  (∀ updateOptions,
     rejected (UpdatePostByFilter None updateOptions w r) r (required "filter_data")) ∧
  (∀ filterData, filterData ≠ None →
     rejected (UpdatePostByFilter filterData None w r) r (required "update_options")) ∧
  rejected (DeletePostByFilter None w r) r (required "filter_data") ∧
  (∀ x msg, rejected x r msg →
     requests (trace_of x) = [] ∧ trace_of x = [] ∧
     ∃ e, outcome_of x = Returns (None, Some e) ∧ is_validation e = true).
Proof.
  split_and!; try reflexivity.
  - intros postID Hid. unfold rejected, UpdatePostByID. by repeat case_decide.
  - intros filterData Hf. unfold rejected, UpdatePostByFilter. by repeat case_decide.
  - intros x msg Hx. unfold rejected in Hx. subst x.
    split_and!; try done. eexists. split; reflexivity.
Qed.

(** ** The client is only read *)

Lemma client_through method url body (k : result → M result) w r :
  quiet k → client_of (bind (makeRequest method url body) k w r) = r.
Proof.
  intros Hk. unfold bind. rewrite makeRequest_run.
  destruct (world_NewRequest w method url) as [e|];
    [|destruct (world_Do w _) as [e|answer]];
    match goal with |- context [k ?x w r] =>
      destruct (Hk x w r) as [_ Hr]; by destruct (k x w r) as [[o r'] t] end.
Qed.

Lemma CreateFile_client filePath w r : client_of (CreateFile filePath w r) = r.
Proof.
  unfold CreateFile. case_decide; [done|]. rewrite this_bind.
  unfold bind, os_Open, defer, io_Copy, http_NewRequest, client_Do, ret.
  destruct (world_Open w filePath); [done|].
  destruct (world_Copy w filePath); [done|].
  destruct (world_NewRequest w _ _); [done|].
  destruct (world_Do w _) as [e|answer]; [done|].
  by destruct (Decode answer) as [resp [err|]].
Qed.

Lemma ReadFileByID_client postID w r : client_of (ReadFileByID postID w r) = r.
Proof.
  unfold ReadFileByID. case_decide; [done|]. rewrite this_bind.
  unfold bind, defer, http_NewRequest, client_Do, ret.
  destruct (world_NewRequest w _ _); [done|].
  destruct (world_Do w _) as [e|answer]; [done|].
  by destruct (Decode answer) as [resp [err|]].
Qed.

(** C9. Every operation leaves the client as it found it: resource, dataset,
    base URL and headers are the same after the call as before, whatever the
    world answers and however the call ends.  The headers change only when
    the caller assigns to them, and a call made after such an assignment
    works on the client as the caller left it. *)
Theorem client_is_read_only (w : World) (r : Racs) :
  (∀ data, client_of (CreatePost data w r) = r) ∧
  (∀ filePath, client_of (CreateFile filePath w r) = r) ∧
  (∀ postID, client_of (ReadPostByID postID w r) = r) ∧
  (∀ filterData sort limit, client_of (ReadPostByFilter filterData sort limit w r) = r) ∧
  (∀ postID, client_of (ReadFileByID postID w r) = r) ∧
  (∀ postID updateOptions, client_of (UpdatePostByID postID updateOptions w r) = r) ∧
  (∀ filterData updateOptions,
     client_of (UpdatePostByFilter filterData updateOptions w r) = r) ∧
  (∀ postID, client_of (DeletePostByID postID w r) = r) ∧
  (∀ filterData, client_of (DeletePostByFilter filterData w r) = r) ∧
  (∀ method url body, client_of (makeRequest method url body w r) = r) ∧
  (∀ key val (op : M result),
     client_of (Headers_assign key val w r) = with_header key val r ∧
     outcome_of ((Headers_assign key val ;;; op) w r) = outcome_of (op w (with_header key val r)) ∧
     trace_of ((Headers_assign key val ;;; op) w r) = trace_of (op w (with_header key val r))).
Proof.
  split_and!.
  - intros data. rewrite CreatePost_eq. case_decide; [done|]. rewrite this_bind.
    destruct (json_Marshal _); [done|]. apply client_through, pass_quiet.
  - intros filePath. apply CreateFile_client.
  - intros postID. rewrite ReadPostByID_eq. case_decide; [done|]. rewrite this_bind.
    apply client_through, pass_quiet.
  - intros filterData sort limit. rewrite ReadPostByFilter_eq, this_bind.
    destruct (json_Marshal _); [done|]. apply client_through, pass_quiet.
  - intros postID. apply ReadFileByID_client.
  - intros postID updateOptions. rewrite UpdatePostByID_eq. repeat case_decide; try done.
    rewrite this_bind. destruct (json_Marshal _); [done|].
    apply client_through, check_updated_quiet.
  - intros filterData updateOptions. rewrite UpdatePostByFilter_eq.
    repeat case_decide; try done.
    rewrite this_bind. destruct (json_Marshal _); [done|].
    apply client_through, check_updated_quiet.
  - intros postID. rewrite DeletePostByID_eq. case_decide; [done|]. rewrite this_bind.
    apply client_through, check_deleted_quiet.
  - intros filterData. rewrite DeletePostByFilter_eq. case_decide; [done|].
    rewrite this_bind. destruct (json_Marshal _); [done|].
    apply client_through, check_deleted_quiet.
  - intros method url body. rewrite makeRequest_run.
    destruct (world_NewRequest w method url); [done|]. by destruct (world_Do w _).
  - intros key val op. unfold bind, Headers_assign. fold (with_header key val r).
    by destruct (op w (with_header key val r)) as [[o r'] t].
Qed.

(** ** Errors of [makeRequest] and of [ReadPostByFilter] *)

Lemma Decode_foreign body resp e : Decode body = (resp, Some e) → ∃ f, e = Foreign f.
Proof.
  destruct body as [f|[]]; cbn; intros [= <- <-]; by eexists.
Qed.

Lemma Decode_nil_on_error body resp e : Decode body = (resp, Some e) → resp = None.
Proof. destruct body as [f|[]]; cbn; by intros [= <- <-]. Qed.

(** [makeRequest] always returns, and an error it returns was made by a
    library, with a nil mapping. *)
Lemma makeRequest_returns method url body w r :
  ∃ res, outcome_of (makeRequest method url body w r) = Returns res ∧
         ∀ e, res.2 = Some e → res.1 = None ∧ ∃ f, e = Foreign f.
Proof.
  rewrite makeRequest_run.
  destruct (world_NewRequest w method url) as [e|].
  { eexists. split; [done|]. intros e' [= <-]. split; [done|]. by eexists. }
  destruct (world_Do w _) as [e|answer].
  { eexists. split; [done|]. intros e' [= <-]. split; [done|]. by eexists. }
  destruct (Decode answer) as [resp [e|]] eqn:Hdec.
  - eexists. split; [done|]. intros e' [= <-]. split; [done|].
    by eapply Decode_foreign.
  - eexists. split; [done|]. by intros e' [=].
Qed.

(** Handing the pair on, as the operations without a check do, changes
    nothing. *)
Lemma bind_pass method url body w r :
  bind (makeRequest method url body) pass w r = makeRequest method url body w r.
Proof.
  unfold bind. rewrite makeRequest_run.
  destruct (world_NewRequest w method url) as [e|]; [done|].
  destruct (world_Do w _) as [e|answer]; [done|].
  by destruct (Decode answer) as [resp [e|]].
Qed.

(** C10. [ReadPostByFilter] has no argument check: for every filter, sort and
    limit it returns, and an error it returns is never a validation error (it
    comes from [json.Marshal], from the transport or from the decoder).  A
    nil filter is replaced by the empty mapping, a nil sort by {_created: -1},
    a zero limit by 1; a filter or sort that is not nil and a limit that is
    not zero, negative ones included, go into the payload as they are. *)
Theorem ReadPostByFilter_never_rejects (filterData sort : value) (limit : Z)
    (w : World) (r : Racs) :
  (∃ res, outcome_of (ReadPostByFilter filterData sort limit w r) = Returns res ∧
          ∀ e, res.2 = Some e → is_validation e = false) ∧
  requests (trace_of (ReadPostByFilter filterData sort limit w r)) =
    (if supported (default_filter filterData) && supported (default_sort sort) then
       match world_NewRequest w "POST" (get_url r) with
       | Some _ => []
       | None =>
           [ {| Method := "POST"; URL := get_url r;
                Body := Some (JSONText
                          (JObject {[ "filter" := encode (default_filter filterData);
                                      "sort" := encode (default_sort sort);
                                      "limit" := JNumber (inject_Z (default_limit limit)) ]}));
                ReqHeader := range_Set (Headers r) ∅ |} ]
       end
     else []) ∧
  default_filter VNil = VMap (Some ∅) ∧
  (filterData ≠ VNil → default_filter filterData = filterData) ∧
  default_sort VNil = VMapInt {[ "_created" := -1 ]} ∧
  (sort ≠ VNil → default_sort sort = sort) ∧
  default_limit 0 = 1 ∧
  (limit ≠ 0 → default_limit limit = limit).
Proof.
  split_and!.
  - rewrite ReadPostByFilter_eq, this_bind.
    destruct (json_Marshal _) as [e|doc].
    { eexists. split; [done|]. by intros e' [= <-]. }
    rewrite bind_pass.
    destruct (makeRequest_returns "POST"
                (fmt_Sprintf "%s/get?resource=%s&dataset=%s" [BaseURL r; Resource r; Dataset r])
                (bytes_NewBuffer doc) w r) as (res & Hres & Herr).
    exists res. split; [done|]. intros e He. by destruct (Herr e He) as [_ [f ->]].
  - apply ReadPostByFilter_requests.
  - done.
  - by destruct filterData.
  - done.
  - by destruct sort.
  - done.
  - intros Hl. unfold default_limit. by case_decide.
Qed.

(** A negative limit on its way out. *)
Example ReadPostByFilter_negative_limit :
  requests (trace_of (ReadPostByFilter (VMap (Some {[ "a" := VInt 1 ]})) VNil (-5)
                        (served (JObject ∅)) client_RD)) =
    [ {| Method := "POST"; URL := "https://racs.rest/v3/get?resource=R&dataset=D";
         Body := Some (JSONText
                   (JObject {[ "filter" := JObject {[ "a" := JNumber 1 ]};
                               "sort" := JObject {[ "_created" := JNumber (-1) ]};
                               "limit" := JNumber (-5) ]}));
         ReqHeader := {[ "Content-Type" := ["application/json"] ]} |} ].
Proof. vm_compute. reflexivity. Qed.

(** ** The shared helper and the two operations that do without it *)

(** What [range r.Headers { req.Header.Set }] leaves in a header, for any
    order in which the entries are visited. *)
Lemma foldl_Header_Set_elem (l : list (string * string)) (h : Header) key val :
  (key, val) ∈ l →
  ∃ key' val', (key', val') ∈ l ∧
    CanonicalMIMEHeaderKey key' = CanonicalMIMEHeaderKey key ∧
    foldl (λ acc kv, Header_Set kv.1 kv.2 acc) h l !! CanonicalMIMEHeaderKey key
    = Some [val'].
Proof.
  induction l as [|[k v] l IH] using rev_ind; [by intros ?%elem_of_nil|].
  rewrite foldl_snoc. unfold Header_Set at 1. cbn [fst snd].
  destruct (decide (CanonicalMIMEHeaderKey k = CanonicalMIMEHeaderKey key)) as [Heq|Hne].
  - intros _. exists k, v. split_and!; [|done|].
    + apply elem_of_app. right. by apply list_elem_of_singleton.
    + by rewrite Heq, lookup_insert_eq.
  - rewrite lookup_insert_ne by done.
    intros [Hin|Hin%list_elem_of_singleton]%elem_of_app; [|congruence].
    destruct (IH Hin) as (k' & v' & Hin' & Hcan & Hlook).
    exists k', v'. split_and!; [|done|done]. apply elem_of_app. by left.
Qed.

Lemma foldl_Header_Set_lookup (l : list (string * string)) (h : Header) K vs :
  foldl (λ acc kv, Header_Set kv.1 kv.2 acc) h l !! K = Some vs →
  h !! K = Some vs ∨
  ∃ key val, (key, val) ∈ l ∧ CanonicalMIMEHeaderKey key = K ∧ vs = [val].
Proof.
  induction l as [|[k v] l IH] using rev_ind; [by left|].
  rewrite foldl_snoc. unfold Header_Set at 1. cbn [fst snd].
  rewrite lookup_insert_Some. intros [[<- <-]|[_ Hlook]].
  - right. exists k, v. split_and!; [|done|done].
    apply elem_of_app. right. by apply list_elem_of_singleton.
  - destruct (IH Hlook) as [?|(key & val & Hin & ? & ?)]; [by left|].
    right. exists key, val. split_and!; [|done|done]. apply elem_of_app. by left.
Qed.

(** Every configured header is set on the request, under its canonical name
    (two configured names that differ only in case are one header, and one of
    their values is sent); nothing else is. *)
Lemma range_Set_attaches (headers : gmap string string) :
  (∀ key val, headers !! key = Some val →
     ∃ key' val', headers !! key' = Some val' ∧
       CanonicalMIMEHeaderKey key' = CanonicalMIMEHeaderKey key ∧
       range_Set headers ∅ !! CanonicalMIMEHeaderKey key = Some [val']) ∧
  (∀ K vs, range_Set headers ∅ !! K = Some vs →
     ∃ key val, headers !! key = Some val ∧ CanonicalMIMEHeaderKey key = K ∧ vs = [val]).
Proof.
  unfold range_Set. split.
  - intros key val Hin%elem_of_map_to_list.
    destruct (foldl_Header_Set_elem _ ∅ key val Hin) as (k' & v' & Hin' & ? & ?).
    exists k', v'. by rewrite <- elem_of_map_to_list.
  - intros K vs [Hempty|(key & val & Hin & ? & ?)]%foldl_Header_Set_lookup.
    + by rewrite lookup_empty in Hempty.
    + exists key, val. by rewrite <- elem_of_map_to_list.
Qed.

Lemma CreateFile_run filePath w r :
  filePath ≠ EmptyString →
  CreateFile filePath w r =
    match world_Open w filePath with
    | Some e => (Returns (None, Some (Foreign e)), r, [])
    | None =>
        match world_Copy w filePath with
        | inl e =>
            (Returns (None, Some (Foreign e)), r, [EvOpen filePath; EvCloseFile filePath])
        | inr contents =>
            match world_NewRequest w "POST" (collection_url r) with
            | Some e =>
                (Returns (None, Some (Foreign e)), r,
                 [EvOpen filePath; EvCloseFile filePath])
            | None =>
                match world_Do w (upload_request r contents) with
                | inl e =>
                    (Returns (None, Some (Foreign e)), r,
                     [EvOpen filePath; EvDo (upload_request r contents);
                      EvCloseFile filePath])
                | inr answer =>
                    (Returns (returned answer), r,
                     [EvOpen filePath; EvDo (upload_request r contents); EvCloseBody;
                      EvCloseFile filePath])
                end
            end
        end
    end.
Proof.
  intros Hpath. unfold CreateFile. case_decide; [done|].
  rewrite this_bind, Sprintf_collection.
  unfold bind, os_Open, defer, io_Copy, http_NewRequest, client_Do, ret, returned,
    withHeader.
  destruct (world_Open w filePath); [done|].
  destruct (world_Copy w filePath) as [e|contents]; [done|].
  destruct (world_NewRequest w _ _); [done|]. cbn [Method URL Body ReqHeader].
  change (Header_Set "Content-Type" "multipart/form-data" ∅)
    with (ReqHeader (upload_request r contents)).
  change {| Method := "POST"; URL := collection_url r; Body := Some (RawBytes contents);
            ReqHeader := ReqHeader (upload_request r contents) |}
    with (upload_request r contents).
  destruct (world_Do w _) as [e|answer]; [done|].
  by destruct (Decode answer) as [resp [err|]].
Qed.

Lemma ReadFileByID_run postID w r :
  postID ≠ EmptyString →
  ReadFileByID postID w r =
    match world_NewRequest w "GET" (file_url r postID) with
    | Some e => (Returns (None, Some (Foreign e)), r, [])
    | None =>
        match world_Do w (download_request r postID) with
        | inl e => (Returns (None, Some (Foreign e)), r, [EvDo (download_request r postID)])
        | inr answer =>
            (Returns (returned answer), r, [EvDo (download_request r postID); EvCloseBody])
        end
    end.
Proof.
  intros Hid. unfold ReadFileByID. case_decide; [done|].
  rewrite this_bind, Sprintf_file.
  unfold bind, defer, http_NewRequest, client_Do, ret, returned, withHeader.
  destruct (world_NewRequest w _ _); [done|]. cbn [Method URL Body ReqHeader].
  change (Header_Set "Accept" "application/octet-stream" ∅)
    with (ReqHeader (download_request r postID)).
  change {| Method := "GET"; URL := file_url r postID; Body := None;
            ReqHeader := ReqHeader (download_request r postID) |}
    with (download_request r postID).
  destruct (world_Do w _) as [e|answer]; [done|].
  by destruct (Decode answer) as [resp [err|]].
Qed.

(** C7. [makeRequest] builds the request from its arguments, sets on it
    every configured header under its canonical name and nothing else, hands
    it to the transport whenever [http.NewRequest] accepts method and URL, and
    returns what the answer decodes to as JSON.  CreatePost, ReadPostByID and
    ReadPostByFilter, once their arguments pass, are that call of [makeRequest]
    and nothing more; the two updates and the two deletes are that call
    followed by their check, which sends nothing.  [CreateFile] and
    [ReadFileByID] do not call it: their request carries the single header
    Content-Type: multipart/form-data, respectively Accept:
    application/octet-stream, whatever headers are configured (so it differs
    from the header of a freshly built client), and the answer is decoded as
    JSON all the same. *)
Theorem requests_go_through_makeRequest (w : World) (r : Racs) :
  (∀ method url body,
     makeRequest method url body w r =
       match world_NewRequest w method url with
       | Some e => (Returns (None, Some (Foreign e)), r, [])
       | None =>
           let req := {| Method := method; URL := url; Body := body;
                         ReqHeader := range_Set (Headers r) ∅ |} in
           match world_Do w req with
           | inl e => (Returns (None, Some (Foreign e)), r, [EvDo req])
           | inr answer => (Returns (returned answer), r, [EvDo req; EvCloseBody])
           end
       end) ∧
  (∀ key val, Headers r !! key = Some val →
     ∃ key' val', Headers r !! key' = Some val' ∧
       CanonicalMIMEHeaderKey key' = CanonicalMIMEHeaderKey key ∧
       range_Set (Headers r) ∅ !! CanonicalMIMEHeaderKey key = Some [val']) ∧
  (∀ K vs, range_Set (Headers r) ∅ !! K = Some vs →
     ∃ key val, Headers r !! key = Some val ∧
       CanonicalMIMEHeaderKey key = K ∧ vs = [val]) ∧
  (∀ data,
     CreatePost (Some data) w r =
       match json_Marshal (VMap (Some data)) with
       | inl err => (Returns (None, Some (Foreign err)), r, [])
       | inr doc => makeRequest "POST" (collection_url r) (Some (JSONText doc)) w r
       end) ∧
  (∀ postID, postID ≠ EmptyString →
     ReadPostByID postID w r = makeRequest "GET" (post_url r postID) None w r) ∧
  (∀ filterData sort limit,
     ReadPostByFilter filterData sort limit w r =
       match json_Marshal
               (VMap (Some {[ "filter" := default_filter filterData;
                              "sort" := default_sort sort;
                              "limit" := VInt (default_limit limit) ]}))
       with
       | inl err => (Returns (None, Some (Foreign err)), r, [])
       | inr doc => makeRequest "POST" (get_url r) (Some (JSONText doc)) w r
       end) ∧
  (∀ postID updateOptions, postID ≠ EmptyString →
     UpdatePostByID postID (Some updateOptions) w r =
       match json_Marshal
               (VMap (Some {[ "update" :=
                  VMap (Some {[ "$set" := VMap (Some updateOptions) ]}) ]}))
       with
       | inl err => (Returns (None, Some (Foreign err)), r, [])
       | inr doc =>
           bind (makeRequest "PATCH" (post_url r postID) (Some (JSONText doc)))
             check_updated w r
       end) ∧
  (∀ filterData updateOptions,
     UpdatePostByFilter (Some filterData) (Some updateOptions) w r =
       match json_Marshal
               (VMap (Some {[ "filter" := VMap (Some filterData);
                              "update" :=
                  VMap (Some {[ "$set" := VMap (Some updateOptions) ]}) ]}))
       with
       | inl err => (Returns (None, Some (Foreign err)), r, [])
       | inr doc =>
           bind (makeRequest "PATCH" (collection_url r) (Some (JSONText doc)))
             check_updated w r
       end) ∧
  (∀ postID, postID ≠ EmptyString →
     DeletePostByID postID w r =
       bind (makeRequest "DELETE" (post_url r postID) None) check_deleted w r) ∧
  (∀ filterData,
     DeletePostByFilter (Some filterData) w r =
       match json_Marshal (VMap (Some {[ "filter" := VMap (Some filterData) ]})) with
       | inl err => (Returns (None, Some (Foreign err)), r, [])
       | inr doc =>
           bind (makeRequest "DELETE" (collection_url r) (Some (JSONText doc)))
             check_deleted w r
       end) ∧
  (∀ method url body,
     requests (trace_of (bind (makeRequest method url body) check_updated w r))
     = requests (trace_of (makeRequest method url body w r)) ∧
     requests (trace_of (bind (makeRequest method url body) check_deleted w r))
     = requests (trace_of (makeRequest method url body w r))) ∧
  (∀ filePath, filePath ≠ EmptyString →
     CreateFile filePath w r =
       match world_Open w filePath with
       | Some e => (Returns (None, Some (Foreign e)), r, [])
       | None =>
           match world_Copy w filePath with
           | inl e =>
               (Returns (None, Some (Foreign e)), r,
                [EvOpen filePath; EvCloseFile filePath])
           | inr contents =>
               match world_NewRequest w "POST" (collection_url r) with
               | Some e =>
                   (Returns (None, Some (Foreign e)), r,
                    [EvOpen filePath; EvCloseFile filePath])
               | None =>
                   let req := {| Method := "POST"; URL := collection_url r;
                                 Body := Some (RawBytes contents);
                                 ReqHeader :=
                                   {[ "Content-Type" := ["multipart/form-data"] ]} |} in
                   match world_Do w req with
                   | inl e =>
                       (Returns (None, Some (Foreign e)), r,
                        [EvOpen filePath; EvDo req; EvCloseFile filePath])
                   | inr answer =>
                       (Returns (returned answer), r,
                        [EvOpen filePath; EvDo req; EvCloseBody; EvCloseFile filePath])
                   end
               end
           end
       end) ∧
  (∀ postID, postID ≠ EmptyString →
     ReadFileByID postID w r =
       match world_NewRequest w "GET" (file_url r postID) with
       | Some e => (Returns (None, Some (Foreign e)), r, [])
       | None =>
           let req := {| Method := "GET"; URL := file_url r postID; Body := None;
                         ReqHeader := {[ "Accept" := ["application/octet-stream"] ]} |} in
           match world_Do w req with
           | inl e => (Returns (None, Some (Foreign e)), r, [EvDo req])
           | inr answer => (Returns (returned answer), r, [EvDo req; EvCloseBody])
           end
       end) ∧
  (Headers r = {[ "Content-Type" := "application/json" ]} →
     range_Set (Headers r) ∅ = {[ "Content-Type" := ["application/json"] ]} ∧
     range_Set (Headers r) ∅ ≠ {[ "Content-Type" := ["multipart/form-data"] ]} ∧
     range_Set (Headers r) ∅ ≠ {[ "Accept" := ["application/octet-stream"] ]}).
Proof.
  destruct (range_Set_attaches (Headers r)) as [Hall Honly].
  split_and!; try done.
  - intros method url body. apply makeRequest_run.
  - intros data. rewrite CreatePost_eq. case_decide; [done|].
    rewrite this_bind, Sprintf_collection. destruct (json_Marshal _); [done|].
    apply bind_pass.
  - intros postID Hid. rewrite ReadPostByID_eq. case_decide; [done|].
    rewrite this_bind, Sprintf_post. apply bind_pass.
  - intros filterData sort limit. rewrite ReadPostByFilter_eq, this_bind, Sprintf_get.
    destruct (json_Marshal _); [done|]. apply bind_pass.
  - intros postID updateOptions Hid. rewrite UpdatePostByID_eq.
    repeat case_decide; try done. rewrite this_bind, Sprintf_post.
    by destruct (json_Marshal _).
  - intros filterData updateOptions. rewrite UpdatePostByFilter_eq.
    repeat case_decide; try done. rewrite this_bind, Sprintf_collection.
    by destruct (json_Marshal _).
  - intros postID Hid. rewrite DeletePostByID_eq. case_decide; [done|].
    by rewrite this_bind, Sprintf_post.
  - intros filterData. rewrite DeletePostByFilter_eq. case_decide; [done|].
    rewrite this_bind, Sprintf_collection. by destruct (json_Marshal _).
  - intros method url body.
    rewrite !requests_through by (apply check_updated_quiet || apply check_deleted_quiet).
    rewrite makeRequest_run.
    destruct (world_NewRequest w method url); [done|]. by destruct (world_Do w _).
  - intros filePath Hpath. apply (CreateFile_run filePath w r Hpath).
  - intros postID Hid. apply (ReadFileByID_run postID w r Hid).
  - intros ->. unfold range_Set. rewrite map_to_list_singleton. cbn [foldl fst snd].
    assert (Header_Set "Content-Type" "application/json" ∅
            = {[ "Content-Type" := ["application/json"] ]}) as -> by reflexivity.
    split_and!; [done| |];
      intros Heq; apply (f_equal (λ h : Header, h !! "Content-Type")) in Heq;
      vm_compute in Heq; discriminate.
Qed.

Lemma requests_go_through_makeRequest_witness :
  ReadPostByID "abc" (served (JObject {[ "title" := JString "t" ]}))
    (with_header "x-api-key" "secret" client_RD)
  = (Returns (Some {[ "title" := VString "t" ]}, None),
     with_header "x-api-key" "secret" client_RD,
     [EvDo {| Method := "GET"; URL := "https://racs.rest/v3/abc?resource=R&dataset=D";
              Body := None;
              ReqHeader := {[ "Content-Type" := ["application/json"];
                              "X-Api-Key" := ["secret"] ]} |};
      EvCloseBody]).
Proof.
  destruct (requests_go_through_makeRequest
              (served (JObject {[ "title" := JString "t" ]}))
              (with_header "x-api-key" "secret" client_RD))
    as (Hhelper & _ & _ & _ & Hread & _).
  rewrite Hread by done. rewrite Hhelper. vm_compute. reflexivity.
Defined.

(** * Further properties of the operations *)

Lemma pass_checker : checker pass.
Proof.
  intros [resp [err|]] w r; cbn; split_and!; try done; try by left.
  - by intros e [= ->].
  - by intros resp' e [= <- <-].
Qed.

Lemma check_deleted_checker : checker check_deleted.
Proof.
  intros [resp [err|]] w r.
  { cbn; split_and!; try done; try by left.
    - by intros e [= ->].
    - by intros resp' e [= <- <-]. }
  unfold check_deleted, bind.
  destruct (index resp "deletedCount") as [| | |q| | | | |];
    try (cbn; split_and!; try done; by left).
  cbn. destruct (float64_eq q 0); cbn; split_and!; try done; try by left.
  by intros resp' e [= <- <-].
Qed.

Lemma check_updated_checker : checker check_updated.
Proof.
  intros [resp [err|]] w r.
  { cbn; split_and!; try done; try by left.
    - by intros e [= ->].
    - by intros resp' e [= <- <-]. }
  unfold check_updated, bind.
  destruct (index resp "matchedCount") as [| | |mc| | | | |];
    try (cbn; split_and!; try done; by left).
  destruct (index resp "modifiedCount") as [| | |md| | | | |];
    cbn; destruct (float64_eq mc 0); cbn;
    try (split_and!; try done; by left);
    try (destruct (float64_eq md 0); cbn);
    try (split_and!; try done; try (by left); by intros resp' e [= <- <-]);
    destruct (float64_gt mc md); cbn; split_and!; try done;
    try (by left); by right.
Qed.

Lemma checker_quiet k : checker k → quiet k.
Proof.
  intros Hk res w r. destruct (Hk res w r) as (Hr & [Ht|Ht] & _); by rewrite Ht.
Qed.

(** A call through [makeRequest], case by case on what the world answers. *)
Lemma through_run method url body k w r :
  checker k →
  bind (makeRequest method url body) k w r =
    match world_NewRequest w method url with
    | Some e => (Returns (None, Some (Foreign e)), r, [])
    | None =>
        match world_Do w (built r method url body) with
        | inl e => (Returns (None, Some (Foreign e)), r, [EvDo (built r method url body)])
        | inr answer =>
            match Decode answer with
            | (_, Some e) =>
                (Returns (None, Some e), r, [EvDo (built r method url body); EvCloseBody])
            | (resp, None) =>
                (outcome_of (k (resp, None) w r), r,
                 [EvDo (built r method url body); EvCloseBody]
                 ++ trace_of (k (resp, None) w r))
            end
        end
    end.
Proof.
  intros Hk. unfold bind. rewrite makeRequest_run.
  destruct (world_NewRequest w method url) as [e|].
  { destruct (Hk (None, Some (Foreign e)) w r) as (_ & _ & Herr & _).
    by rewrite (Herr (Foreign e)). }
  destruct (world_Do w _) as [e|answer].
  { destruct (Hk (None, Some (Foreign e)) w r) as (_ & _ & Herr & _).
    by rewrite (Herr (Foreign e)). }
  destruct (Decode answer) as [resp [e|]].
  { destruct (Hk (None, Some e) w r) as (_ & _ & Herr & _). by rewrite (Herr e). }
  destruct (Hk (resp, None) w r) as (Hr & _).
  destruct (k (resp, None) w r) as [[o r'] t]. cbn in *. by subst.
Qed.

(** Every operation returns early without any effect, or is a call through
    [makeRequest] to a scoped URL, or is one of the two file operations. *)
Lemma operation_cases op w r :
  operation op →
  (∃ e, op w r = (Returns (None, Some e), r, [])) ∨
  (∃ method url body k,
     checker k ∧ scoped r url ∧ method ∈ ["GET"; "POST"; "PATCH"; "DELETE"] ∧
     op w r = bind (makeRequest method url body) k w r) ∨
  (∃ filePath, filePath ≠ EmptyString ∧ op = CreateFile filePath) ∨
  (∃ postID, postID ≠ EmptyString ∧ op = ReadFileByID postID).
Proof.
  assert (scoped r (collection_url r)) as Hcol by (by exists EmptyString).
  assert (∀ postID, scoped r (post_url r postID)) as Hpost
    by (intros postID; by exists ("/" +:+ postID)).
  assert (scoped r (get_url r)) as Hget by (by exists "/get").
  intros [data|filePath|postID|filterData sort limit|postID|postID updateOptions
         |filterData updateOptions|postID|filterData].
  - rewrite CreatePost_eq. case_decide; [left; by eexists|].
    rewrite this_bind, Sprintf_collection. destruct (json_Marshal _); [left; by eexists|].
    right; left. eexists _, _, _, _.
    refine (conj pass_checker (conj _ (conj _ eq_refl))); [done|set_solver].
  - destruct (decide (filePath = EmptyString)) as [->|Hpath]; [left; by eexists|].
    right; right; left. by exists filePath.
  - rewrite ReadPostByID_eq. case_decide; [left; by eexists|].
    rewrite this_bind, Sprintf_post.
    right; left. eexists _, _, _, _.
    refine (conj pass_checker (conj _ (conj _ eq_refl))); [done|set_solver].
  - rewrite ReadPostByFilter_eq, this_bind, Sprintf_get.
    destruct (json_Marshal _); [left; by eexists|].
    right; left. eexists _, _, _, _.
    refine (conj pass_checker (conj _ (conj _ eq_refl))); [done|set_solver].
  - destruct (decide (postID = EmptyString)) as [->|Hid]; [left; by eexists|].
    right; right; right. by exists postID.
  - rewrite UpdatePostByID_eq. repeat case_decide; try (left; by eexists).
    rewrite this_bind, Sprintf_post. destruct (json_Marshal _); [left; by eexists|].
    right; left. eexists _, _, _, _.
    refine (conj check_updated_checker (conj _ (conj _ eq_refl))); [done|set_solver].
  - rewrite UpdatePostByFilter_eq. repeat case_decide; try (left; by eexists).
    rewrite this_bind, Sprintf_collection. destruct (json_Marshal _); [left; by eexists|].
    right; left. eexists _, _, _, _.
    refine (conj check_updated_checker (conj _ (conj _ eq_refl))); [done|set_solver].
  - rewrite DeletePostByID_eq. case_decide; [left; by eexists|].
    rewrite this_bind, Sprintf_post.
    right; left. eexists _, _, _, _.
    refine (conj check_deleted_checker (conj _ (conj _ eq_refl))); [done|set_solver].
  - rewrite DeletePostByFilter_eq. case_decide; [left; by eexists|].
    rewrite this_bind, Sprintf_collection. destruct (json_Marshal _); [left; by eexists|].
    right; left. eexists _, _, _, _.
    refine (conj check_deleted_checker (conj _ (conj _ eq_refl))); [done|set_solver].
Qed.

(** Case analysis on an operation and on what the world answers it. *)
Ltac operation_run op w r Hop :=
  let e := fresh "e" in
  let Hk := fresh "Hk" in
  let Hrun := fresh "Hrun" in
  destruct (operation_cases op w r Hop) as
    [[e Hrun]
    |[(method & url & body & k & Hk & Hscoped & Hmethod & Hrun)
     |[(path & Hpath & ->)|(id & Hid & ->)]]];
  [ rewrite Hrun; clear Hrun
  | rewrite Hrun, (through_run method url body k w r Hk); clear Hrun;
    destruct (world_NewRequest w method url) as [e|] eqn:Hnew;
    [|destruct (world_Do w (built r method url body)) as [e|answer] eqn:Hdo;
      [|destruct (Decode answer) as [decoded [e|]] eqn:Hdecode;
        [|let Ht := fresh "Ht" in
          destruct (Hk (decoded, None) w r) as (_ & [Ht|Ht] & _ & Hnil); rewrite Ht]]]
  | rewrite (CreateFile_run path w r Hpath);
    destruct (world_Open w path) as [e|] eqn:Hopen;
    [|destruct (world_Copy w path) as [e|contents] eqn:Hcopy;
      [|destruct (world_NewRequest w "POST" (collection_url r)) as [e|] eqn:Hnew;
        [|destruct (world_Do w (upload_request r contents)) as [e|answer] eqn:Hdo]]]
  | rewrite (ReadFileByID_run id w r Hid);
    destruct (world_NewRequest w "GET" (file_url r id)) as [e|] eqn:Hnew;
    [|destruct (world_Do w (download_request r id)) as [e|answer] eqn:Hdo] ].

(** X1. A call of any operation sends at most one request, whatever the
    world answers: nothing is retried. *)
Theorem at_most_one_request (op : M result) (w : World) (r : Racs) :
  operation op → (length (requests (trace_of (op w r))) ≤ 1)%nat.
Proof.
  intros Hop. operation_run op w r Hop; cbn; lia.
Qed.

Lemma at_most_one_request_witness :
  (length (requests (trace_of (DeletePostByID "abc" (served (delete_count 1)) client_RD)))
   ≤ 1)%nat.
Proof. apply at_most_one_request. apply op_DeletePostByID. Defined.

(** X2. An operation never returns a mapping together with an error: when
    the error is not nil the mapping is nil. *)
Theorem error_means_nil_mapping (op : M result) (w : World) (r : Racs)
    (resp : gomap) (err : error) :
  operation op →
  outcome_of (op w r) = Returns (resp, Some err) →
  resp = None.
Proof.
  intros Hop. operation_run op w r Hop; cbn; try by intros [= <- <-].
  - apply Hnil.
  - apply Hnil.
  - unfold returned. destruct (Decode answer) as [decoded [e|]]; by intros [= <- <-].
  - unfold returned. destruct (Decode answer) as [decoded [e|]]; by intros [= <- <-].
Qed.

Lemma error_means_nil_mapping_witness :
  outcome_of (DeletePostByID "abc" (served (delete_count 0)) client_RD)
  = Returns (None, Some ErrFailedDelete) ∧
  (None : gomap) = None.
Proof.
  assert (outcome_of (DeletePostByID "abc" (served (delete_count 0)) client_RD)
          = Returns (None, Some ErrFailedDelete)) as Hout by (vm_compute; reflexivity).
  split; [exact Hout|].
  exact (error_means_nil_mapping (DeletePostByID "abc") (served (delete_count 0))
           client_RD None ErrFailedDelete (op_DeletePostByID "abc") Hout).
Defined.

(** X3. When the transport fails on the request of a call, the call returns
    the transport's error as it is, with a nil mapping; it prints nothing and
    there is no body to close. *)
Theorem transport_error_is_returned (op : M result) (w : World) (r : Racs)
    (req : Request) (err : foreign) :
  operation op →
  req ∈ requests (trace_of (op w r)) →
  world_Do w req = inl err →
  op w r = (Returns (None, Some (Foreign err)), r, trace_of (op w r)) ∧
  printed (trace_of (op w r)) = [] ∧
  closed_bodies (trace_of (op w r)) = 0%nat.
Proof.
  intros Hop. operation_run op w r Hop; cbn;
    try (by intros ?%elem_of_nil);
    intros ->%list_elem_of_singleton Herr; rewrite Herr in Hdo; by simplify_eq.
Qed.

Lemma transport_error_is_returned_witness :
  let down := {| world_Open := λ _, None; world_Copy := λ _, inr "contents";
                 world_NewRequest := λ _ _, None;
                 world_Do := λ _, inl (NetError "connection refused") |} in
  outcome_of (ReadPostByID "abc" down client_RD)
  = Returns (None, Some (Foreign (NetError "connection refused"))).
Proof.
  intros down.
  destruct (transport_error_is_returned (ReadPostByID "abc") down client_RD
              (built client_RD "GET" "https://racs.rest/v3/abc?resource=R&dataset=D" None)
              (NetError "connection refused")) as [Hrun _].
  - apply op_ReadPostByID.
  - vm_compute. left.
  - reflexivity.
  - by rewrite Hrun.
Defined.

(** X4. Every response body that was received is closed, and nothing else
    is: the number of bodies closed during a call is the number of its
    requests that got an answer, also when the call ends in a panic. *)
Theorem response_body_is_closed (op : M result) (w : World) (r : Racs) :
  operation op →
  closed_bodies (trace_of (op w r)) = length (answers w (trace_of (op w r))).
Proof.
  intros Hop. unfold answers.
  operation_run op w r Hop; cbn; rewrite ?Hdo; reflexivity.
Qed.

Lemma response_body_is_closed_witness :
  outcome_of (UpdatePostByID "abc" (Some {[ "x" := VInt 1 ]}) (served (JObject ∅)) client_RD)
  = Panics VNil ∧
  closed_bodies
    (trace_of (UpdatePostByID "abc" (Some {[ "x" := VInt 1 ]}) (served (JObject ∅)) client_RD))
  = 1%nat.
Proof.
  split; [vm_compute; reflexivity|].
  etrans.
  - apply (response_body_is_closed (UpdatePostByID "abc" (Some {[ "x" := VInt 1 ]}))
             (served (JObject ∅)) client_RD). apply op_UpdatePostByID.
  - vm_compute. reflexivity.
Defined.

(** X5. Only [CreateFile] opens a file, it opens the one it was given, and a
    file it opened is closed last, on every path: after a failed copy, a
    refused URL, a transport error and a decoding error alike. *)
Theorem opened_file_is_closed (op : M result) (w : World) (r : Racs) :
  operation op →
  file_events (trace_of (op w r)) = [] ∨
  ∃ filePath mid,
    op = CreateFile filePath ∧ world_Open w filePath = None ∧
    trace_of (op w r) = EvOpen filePath :: mid ++ [EvCloseFile filePath] ∧
    file_events mid = [].
Proof.
  intros Hop. operation_run op w r Hop; cbn; try (by left); right; exists path.
  - by exists [].
  - by exists [].
  - by exists [EvDo (upload_request r contents)].
  - by exists [EvDo (upload_request r contents); EvCloseBody].
Qed.

Lemma opened_file_is_closed_witness :
  trace_of (CreateFile "report.pdf" (served (JObject ∅)) client_RD)
  = [EvOpen "report.pdf"; EvDo (upload_request client_RD "contents"); EvCloseBody;
     EvCloseFile "report.pdf"].
Proof.
  destruct (opened_file_is_closed (CreateFile "report.pdf") (served (JObject ∅)) client_RD)
    as [Hnone|(filePath & mid & _ & _ & Htrace & _)]; [apply op_CreateFile| |].
  - vm_compute in Hnone. discriminate.
  - vm_compute. reflexivity.
Defined.

(** X7. Every request of every operation goes to a URL made of the client's
    base URL, a path, and the query ?resource=..&dataset=.. with the client's
    resource and dataset, and its method is GET, POST, PATCH or DELETE. *)
Theorem requests_are_scoped (op : M result) (w : World) (r : Racs) (req : Request) :
  operation op →
  req ∈ requests (trace_of (op w r)) →
  (∃ path, URL req = BaseURL r +:+ path +:+ "?resource=" +:+ Resource r
                     +:+ "&dataset=" +:+ Dataset r) ∧
  Method req ∈ ["GET"; "POST"; "PATCH"; "DELETE"].
Proof.
  intros Hop. operation_run op w r Hop; cbn;
    try (by intros ?%elem_of_nil); intros ->%list_elem_of_singleton; cbn.
  1-4: by split.
  1-2: split; [by exists EmptyString | set_solver].
  1-2: split; [by exists ("/file/" +:+ id) | set_solver].
Qed.

Lemma requests_are_scoped_witness :
  URL (download_request client_RD "abc")
  = "https://racs.rest/v3" +:+ "/file/abc" +:+ "?resource=" +:+ "R" +:+ "&dataset=" +:+ "D".
Proof.
  destruct (requests_are_scoped (ReadFileByID "abc") (served (JObject ∅)) client_RD
              (download_request client_RD "abc")) as [_ _].
  - apply op_ReadFileByID.
  - vm_compute. left.
  - reflexivity.
Defined.

Lemma unchecked_cases call w r :
  unchecked_call call →
  (∃ e, call w r = (Returns (None, Some e), r, [])) ∨
  (∃ method url body, call w r = makeRequest method url body w r) ∨
  (∃ filePath, filePath ≠ EmptyString ∧ call = CreateFile filePath) ∨
  (∃ postID, postID ≠ EmptyString ∧ call = ReadFileByID postID).
Proof.
  intros [data|filePath|postID|filterData sort limit|postID].
  - rewrite CreatePost_eq. case_decide; [left; by eexists|].
    rewrite this_bind. destruct (json_Marshal _); [left; by eexists|].
    right; left. eexists _, _, _. apply bind_pass.
  - destruct (decide (filePath = EmptyString)) as [->|Hpath]; [left; by eexists|].
    right; right; left. by exists filePath.
  - rewrite ReadPostByID_eq. case_decide; [left; by eexists|].
    rewrite this_bind. right; left. eexists _, _, _. apply bind_pass.
  - rewrite ReadPostByFilter_eq, this_bind.
    destruct (json_Marshal _); [left; by eexists|].
    right; left. eexists _, _, _. apply bind_pass.
  - destruct (decide (postID = EmptyString)) as [->|Hid]; [left; by eexists|].
    right; right; right. by exists postID.
Qed.

(** An unchecked call returns, and returns what the answer decodes to. *)
Lemma unchecked_answered call w r :
  unchecked_call call →
  returns_normally (outcome_of (call w r)) ∧
  ∀ req answer,
    req ∈ requests (trace_of (call w r)) → world_Do w req = inr answer →
    outcome_of (call w r) = Returns (returned answer).
Proof.
  intros Hcall.
  destruct (unchecked_cases call w r Hcall) as
    [[e ->]|[(method & url & body & ->)|[(path & Hpath & ->)|(id & Hid & ->)]]].
  - split; [by eexists|]. by intros req answer ?%elem_of_nil.
  - rewrite makeRequest_run.
    destruct (world_NewRequest w method url) as [e|].
    { split; [by eexists|]. by intros req answer ?%elem_of_nil. }
    destruct (world_Do w (built r method url body)) as [e|answer] eqn:Hdo;
      (split; [by eexists|]); cbn; intros req answer' ->%list_elem_of_singleton Hdo';
      rewrite Hdo' in Hdo; by simplify_eq.
  - rewrite (CreateFile_run path w r Hpath).
    destruct (world_Open w path) as [e|].
    { split; [by eexists|]. by intros req answer ?%elem_of_nil. }
    destruct (world_Copy w path) as [e|contents].
    { split; [by eexists|]. by intros req answer ?%elem_of_nil. }
    destruct (world_NewRequest w _ _) as [e|].
    { split; [by eexists|]. by intros req answer ?%elem_of_nil. }
    destruct (world_Do w (upload_request r contents)) as [e|answer] eqn:Hdo;
      (split; [by eexists|]); cbn; intros req answer' ->%list_elem_of_singleton Hdo';
      rewrite Hdo' in Hdo; by simplify_eq.
  - rewrite (ReadFileByID_run id w r Hid).
    destruct (world_NewRequest w _ _) as [e|].
    { split; [by eexists|]. by intros req answer ?%elem_of_nil. }
    destruct (world_Do w (download_request r id)) as [e|answer] eqn:Hdo;
      (split; [by eexists|]); cbn; intros req answer' ->%list_elem_of_singleton Hdo';
      rewrite Hdo' in Hdo; by simplify_eq.
Qed.

(** X6. CreatePost, CreateFile, ReadPostByID, ReadPostByFilter and
    ReadFileByID never panic: they return for every world, and when their
    request is answered they return exactly what the answer decodes to,
    whatever fields it has. *)
Theorem unchecked_calls_return (call : M result) (w : World) (r : Racs) :
  unchecked_call call →
  returns_normally (outcome_of (call w r)) ∧
  ∀ req answer,
    req ∈ requests (trace_of (call w r)) → world_Do w req = inr answer →
    outcome_of (call w r) = Returns (returned answer).
Proof. apply unchecked_answered. Qed.

Lemma unchecked_calls_return_witness :
  outcome_of (ReadPostByID "abc" (served (JObject ∅)) client_RD)
  = Returns (Some ∅, None).
Proof.
  destruct (unchecked_calls_return (ReadPostByID "abc") (served (JObject ∅)) client_RD)
    as [_ Hanswered]; [apply unchecked_ReadPostByID|].
  rewrite (Hanswered
             (built client_RD "GET" "https://racs.rest/v3/abc?resource=R&dataset=D" None)
             (Document (JObject ∅))); [reflexivity | vm_compute; left | reflexivity].
Defined.

Lemma index_nil key : index None key = VNil.
Proof. reflexivity. Qed.

(** X13. When the service answers with the JSON value null, the decoder
    leaves the mapping nil and reports no error: the unchecked operations then
    return a nil mapping and a nil error, and the updates and deletes panic,
    since indexing the nil mapping yields nil for the count they assert. *)
Theorem null_answer (call : M result) (w : World) (r : Racs) :
  decoded_response w (trace_of (call w r)) None →
  (unchecked_call call → outcome_of (call w r) = Returns (None, None)) ∧
  (update_call call → outcome_of (call w r) = Panics VNil) ∧
  (delete_call call → outcome_of (call w r) = Panics VNil).
Proof.
  intros Hdec. split_and!; intros Hcall.
  - destruct Hdec as (req & answer & Hin & Hdo & Hdecode).
    destruct (unchecked_answered call w r Hcall) as [_ Hanswered].
    rewrite (Hanswered req answer Hin Hdo). unfold returned. by rewrite Hdecode.
  - destruct (update_call_decoded call w r None Hcall Hdec) as [req ->].
    destruct (check_updated_panics None w r) as (v & -> & _ & [->| ->]); done.
  - destruct (delete_call_decoded call w r None Hcall Hdec) as [req ->].
    by rewrite check_deleted_panics.
Qed.

Lemma null_answer_witness :
  outcome_of (ReadPostByID "abc" (served JNull) client_RD) = Returns (None, None) ∧
  outcome_of (DeletePostByID "abc" (served JNull) client_RD) = Panics VNil.
Proof.
  split.
  - destruct (null_answer (ReadPostByID "abc") (served JNull) client_RD) as [Hread _].
    + exists (built client_RD "GET" "https://racs.rest/v3/abc?resource=R&dataset=D" None),
             (Document JNull).
      split; [vm_compute; left | split; reflexivity].
    + apply Hread, unchecked_ReadPostByID.
  - destruct (null_answer (DeletePostByID "abc") (served JNull) client_RD)
      as (_ & _ & Hdelete).
    + exists (built client_RD "DELETE" "https://racs.rest/v3/abc?resource=R&dataset=D" None),
             (Document JNull).
      split; [vm_compute; left | split; reflexivity].
    + apply Hdelete, delete_by_id.
Defined.

Lemma pass_silent : silent pass.
Proof. by intros [resp [err|]] w r. Qed.

Lemma check_deleted_silent : silent check_deleted.
Proof.
  intros [resp [err|]] w r; [done|]. unfold check_deleted, bind.
  destruct (index resp "deletedCount") as [| | |q| | | | |]; try done.
  cbn. by destruct (float64_eq q 0).
Qed.

Lemma through_printed method url body k w r :
  checker k →
  printed (trace_of (bind (makeRequest method url body) k w r)) = [] ∨
  printed (trace_of (bind (makeRequest method url body) k w r)) = [warning].
Proof.
  intros Hk. rewrite (through_run method url body k w r Hk).
  destruct (world_NewRequest w method url); [by left|].
  destruct (world_Do w _) as [e|answer]; [by left|].
  destruct (Decode answer) as [decoded [e|]]; [by left|].
  destruct (Hk (decoded, None) w r) as (_ & [Ht|Ht] & _); rewrite Ht; [by left|by right].
Qed.

Lemma through_silent method url body k w r :
  checker k → silent k →
  printed (trace_of (bind (makeRequest method url body) k w r)) = [].
Proof.
  intros Hk Hs. rewrite (through_run method url body k w r Hk).
  destruct (world_NewRequest w method url); [done|].
  destruct (world_Do w _) as [e|answer]; [done|].
  destruct (Decode answer) as [decoded [e|]]; [done|].
  by rewrite (Hs (decoded, None) w r).
Qed.

(** X14. The only line an operation ever prints is the warning of the
    updates, at most once per call; every other operation prints nothing. *)
Theorem only_updates_print (call : M result) (w : World) (r : Racs) :
  operation call →
  (printed (trace_of (call w r)) = [] ∨
   update_call call ∧ printed (trace_of (call w r)) = [warning]).
Proof.
  intros [data|filePath|postID|filterData sort limit|postID|postID updateOptions
         |filterData updateOptions|postID|filterData].
  - left. rewrite CreatePost_eq. case_decide; [done|].
    rewrite this_bind. destruct (json_Marshal _); [done|].
    apply through_silent; [apply pass_checker|apply pass_silent].
  - left. destruct (decide (filePath = EmptyString)) as [->|Hpath]; [done|].
    rewrite (CreateFile_run filePath w r Hpath).
    destruct (world_Open w filePath); [done|].
    destruct (world_Copy w filePath); [done|].
    destruct (world_NewRequest w _ _); [done|].
    by destruct (world_Do w _).
  - left. rewrite ReadPostByID_eq. case_decide; [done|]. rewrite this_bind.
    apply through_silent; [apply pass_checker|apply pass_silent].
  - left. rewrite ReadPostByFilter_eq, this_bind. destruct (json_Marshal _); [done|].
    apply through_silent; [apply pass_checker|apply pass_silent].
  - left. destruct (decide (postID = EmptyString)) as [->|Hid]; [done|].
    rewrite (ReadFileByID_run postID w r Hid).
    destruct (world_NewRequest w _ _); [done|].
    by destruct (world_Do w _).
  - pose proof (update_by_id postID updateOptions) as Hupdate. revert Hupdate.
    rewrite UpdatePostByID_eq. repeat case_decide; try by left.
    rewrite this_bind. destruct (json_Marshal _); [by left|].
    intros Hupdate.
    destruct (through_printed "PATCH"
                (fmt_Sprintf "%s/%s?resource=%s&dataset=%s"
                   [BaseURL r; postID; Resource r; Dataset r])
                (bytes_NewBuffer j) check_updated w r check_updated_checker);
      [by left|by right].
  - pose proof (update_by_filter filterData updateOptions) as Hupdate. revert Hupdate.
    rewrite UpdatePostByFilter_eq. repeat case_decide; try by left.
    rewrite this_bind. destruct (json_Marshal _); [by left|].
    intros Hupdate.
    destruct (through_printed "PATCH"
                (fmt_Sprintf "%s?resource=%s&dataset=%s" [BaseURL r; Resource r; Dataset r])
                (bytes_NewBuffer j) check_updated w r check_updated_checker);
      [by left|by right].
  - left. rewrite DeletePostByID_eq. case_decide; [done|]. rewrite this_bind.
    apply through_silent; [apply check_deleted_checker|apply check_deleted_silent].
  - left. rewrite DeletePostByFilter_eq. case_decide; [done|]. rewrite this_bind.
    destruct (json_Marshal _); [done|].
    apply through_silent; [apply check_deleted_checker|apply check_deleted_silent].
Qed.

Lemma only_updates_print_witness :
  printed (trace_of (DeletePostByID "abc" (served (delete_count 1)) client_RD)) = [].
Proof.
  destruct (only_updates_print (DeletePostByID "abc") (served (delete_count 1)) client_RD)
    as [Hnone|[_ Hwarn]]; [apply op_DeletePostByID|done|].
  vm_compute in Hwarn. discriminate.
Defined.

Lemma Marshal_map (m : gmap string value) :
  json_Marshal (VMap (Some m))
  = if supported (VMap (Some m)) then inr (encode (VMap (Some m)))
    else inl UnsupportedTypeError.
Proof. reflexivity. Qed.

Lemma Marshal_filter (filterData : gmap string value) :
  json_Marshal (VMap (Some {[ "filter" := VMap (Some filterData) ]}))
  = if supported (VMap (Some filterData))
    then inr (JObject {[ "filter" := encode (VMap (Some filterData)) ]})
    else inl UnsupportedTypeError.
Proof.
  unfold json_Marshal. rewrite supported_singleton.
  by rewrite (encode_map {[ _ := _ ]}), map_fmap_singleton.
Qed.

(** X9. [CreatePost] with a non-nil mapping that [json.Marshal] accepts, the
    empty mapping included, is one call of [makeRequest]: a POST to
    {base}?resource=..&dataset=.. whose body is the document of the mapping;
    what [makeRequest] returns is returned, and the trace is its trace. *)
Theorem CreatePost_is_one_makeRequest (data : gmap string value) (w : World) (r : Racs) :
  supported (VMap (Some data)) = true →
  CreatePost (Some data) w r =
    makeRequest "POST"
      (BaseURL r +:+ "?resource=" +:+ Resource r +:+ "&dataset=" +:+ Dataset r)
      (Some (JSONText (JObject (encode <$> data)))) w r.
Proof.
  intros Hdata. rewrite CreatePost_eq. case_decide; [done|].
  rewrite this_bind, Marshal_map, Hdata, Sprintf_collection. apply bind_pass.
Qed.

Lemma CreatePost_is_one_makeRequest_witness :
  requests (trace_of (CreatePost (Some ∅) (served (JObject ∅)) client_RD)) =
    [ {| Method := "POST"; URL := "https://racs.rest/v3?resource=R&dataset=D";
         Body := Some (JSONText (JObject ∅));
         ReqHeader := {[ "Content-Type" := ["application/json"] ]} |} ].
Proof.
  rewrite (CreatePost_is_one_makeRequest ∅ (served (JObject ∅)) client_RD);
    [|reflexivity].
  vm_compute. reflexivity.
Defined.

(** X10. For a non-empty id, [ReadPostByID] is one call of [makeRequest]: a
    GET to {base}/{id}?resource=..&dataset=.. without a body; [ReadFileByID]
    sends a GET to {base}/file/{id}?resource=..&dataset=.. without a body,
    and no request when [http.NewRequest] refuses the URL. *)
Theorem read_requests (postID : string) (w : World) (r : Racs) :
  postID ≠ EmptyString →
  ReadPostByID postID w r =
    makeRequest "GET"
      (BaseURL r +:+ "/" +:+ postID +:+ "?resource=" +:+ Resource r
       +:+ "&dataset=" +:+ Dataset r)
      None w r ∧
  requests (trace_of (ReadFileByID postID w r)) =
    match world_NewRequest w "GET"
            (BaseURL r +:+ "/file/" +:+ postID +:+ "?resource=" +:+ Resource r
             +:+ "&dataset=" +:+ Dataset r)
    with
    | Some _ => []
    | None =>
        [ {| Method := "GET";
             URL := BaseURL r +:+ "/file/" +:+ postID +:+ "?resource=" +:+ Resource r
                    +:+ "&dataset=" +:+ Dataset r;
             Body := None;
             ReqHeader := {[ "Accept" := ["application/octet-stream"] ]} |} ]
    end.
Proof.
  intros Hid. split.
  - rewrite ReadPostByID_eq. case_decide; [done|].
    rewrite this_bind, Sprintf_post. apply bind_pass.
  - rewrite (ReadFileByID_run postID w r Hid).
    change (BaseURL r +:+ "/file/" +:+ postID +:+ "?resource=" +:+ Resource r
            +:+ "&dataset=" +:+ Dataset r) with (file_url r postID).
    destruct (world_NewRequest w _ _); [done|]. by destruct (world_Do w _).
Qed.

Lemma read_requests_witness :
  requests (trace_of (ReadFileByID "abc" (served (JObject ∅)) client_RD)) =
    [ {| Method := "GET"; URL := "https://racs.rest/v3/file/abc?resource=R&dataset=D";
         Body := None;
         ReqHeader := {[ "Accept" := ["application/octet-stream"] ]} |} ].
Proof.
  destruct (read_requests "abc" (served (JObject ∅)) client_RD) as [_ Hfile]; [done|].
  rewrite Hfile. reflexivity.
Defined.

(** X8. For a non-empty id, [DeletePostByID] sends a DELETE to
    {base}/{id}?resource=..&dataset=.. without a body; for a non-nil filter
    that [json.Marshal] accepts, the empty filter included,
    [DeletePostByFilter] sends a DELETE to {base}?resource=..&dataset=.. whose
    body is the document {filter: filter}.  Each is the only request of the
    call, and is not sent when [http.NewRequest] refuses the URL. *)
Theorem delete_requests (postID : string) (filterData : gmap string value)
    (w : World) (r : Racs) :
  postID ≠ EmptyString →
  supported (VMap (Some filterData)) = true →
  requests (trace_of (DeletePostByID postID w r)) =
    match world_NewRequest w "DELETE"
            (BaseURL r +:+ "/" +:+ postID +:+ "?resource=" +:+ Resource r
             +:+ "&dataset=" +:+ Dataset r)
    with
    | Some _ => []
    | None =>
        [ {| Method := "DELETE";
             URL := BaseURL r +:+ "/" +:+ postID +:+ "?resource=" +:+ Resource r
                    +:+ "&dataset=" +:+ Dataset r;
             Body := None;
             ReqHeader := range_Set (Headers r) ∅ |} ]
    end ∧
  requests (trace_of (DeletePostByFilter (Some filterData) w r)) =
    match world_NewRequest w "DELETE"
            (BaseURL r +:+ "?resource=" +:+ Resource r +:+ "&dataset=" +:+ Dataset r)
    with
    | Some _ => []
    | None =>
        [ {| Method := "DELETE";
             URL := BaseURL r +:+ "?resource=" +:+ Resource r +:+ "&dataset=" +:+ Dataset r;
             Body := Some (JSONText (JObject {[ "filter" := JObject (encode <$> filterData) ]}));
             ReqHeader := range_Set (Headers r) ∅ |} ]
    end.
Proof.
  intros Hid Hf. split.
  - rewrite DeletePostByID_eq. case_decide; [done|].
    rewrite this_bind, Sprintf_post. apply requests_through, check_deleted_quiet.
  - rewrite DeletePostByFilter_eq. case_decide; [done|].
    rewrite this_bind, Marshal_filter, Hf, Sprintf_collection.
    apply requests_through, check_deleted_quiet.
Qed.

Lemma delete_requests_witness :
  requests (trace_of (DeletePostByFilter (Some ∅) (served (delete_count 3)) client_RD)) =
    [ {| Method := "DELETE"; URL := "https://racs.rest/v3?resource=R&dataset=D";
         Body := Some (JSONText (JObject {[ "filter" := JObject ∅ ]}));
         ReqHeader := {[ "Content-Type" := ["application/json"] ]} |} ].
Proof.
  destruct (delete_requests "abc" ∅ (served (delete_count 3)) client_RD)
    as [_ Hfilter]; [done|reflexivity|].
  rewrite Hfilter. vm_compute. reflexivity.
Defined.

(** X11. [CreateFile] with a non-empty path: when the file cannot be opened
    the error of [os.Open] is returned and nothing else happens; when
    copying it fails the error is returned, nothing is sent and the file is
    closed; when it was copied, the one request is a POST to
    {base}?resource=..&dataset=.. whose body is the bytes of the file as they
    are, under the single header Content-Type: multipart/form-data. *)
Theorem CreateFile_upload (filePath : string) (w : World) (r : Racs) :
  filePath ≠ EmptyString →
  (∀ e, world_Open w filePath = Some e →
     CreateFile filePath w r = (Returns (None, Some (Foreign e)), r, [])) ∧
  (∀ e, world_Open w filePath = None → world_Copy w filePath = inl e →
     CreateFile filePath w r =
       (Returns (None, Some (Foreign e)), r, [EvOpen filePath; EvCloseFile filePath])) ∧
  (∀ contents,
     world_Open w filePath = None → world_Copy w filePath = inr contents →
     world_NewRequest w "POST"
       (BaseURL r +:+ "?resource=" +:+ Resource r +:+ "&dataset=" +:+ Dataset r) = None →
     requests (trace_of (CreateFile filePath w r)) =
       [ {| Method := "POST";
            URL := BaseURL r +:+ "?resource=" +:+ Resource r +:+ "&dataset=" +:+ Dataset r;
            Body := Some (RawBytes contents);
            ReqHeader := {[ "Content-Type" := ["multipart/form-data"] ]} |} ]).
Proof.
  intros Hpath. rewrite (CreateFile_run filePath w r Hpath). split_and!.
  - by intros e ->.
  - by intros e -> ->.
  - intros contents -> ->.
    change (BaseURL r +:+ "?resource=" +:+ Resource r +:+ "&dataset=" +:+ Dataset r)
      with (collection_url r).
    intros ->. by destruct (world_Do w _).
Qed.

Lemma CreateFile_upload_witness :
  requests (trace_of (CreateFile "report.pdf" (served (JObject ∅)) client_RD)) =
    [ {| Method := "POST"; URL := "https://racs.rest/v3?resource=R&dataset=D";
         Body := Some (RawBytes "contents");
         ReqHeader := {[ "Content-Type" := ["multipart/form-data"] ]} |} ].
Proof.
  destruct (CreateFile_upload "report.pdf" (served (JObject ∅)) client_RD)
    as (_ & _ & Hsent); [done|].
  apply (Hsent "contents"); reflexivity.
Defined.

(** X12. When [json.Marshal] refuses the payload, because the mapping holds
    a value without a JSON form, the operation returns the marshalling error
    with a nil mapping and nothing is sent: the trace of the call is
    empty. *)
Theorem unmarshalable_payload_sends_nothing (bad : gmap string value)
    (w : World) (r : Racs) :
  supported (VMap (Some bad)) = false →
  CreatePost (Some bad) w r = (Returns (None, Some (Foreign UnsupportedTypeError)), r, []) ∧
  (∀ postID, postID ≠ EmptyString →
     UpdatePostByID postID (Some bad) w r
     = (Returns (None, Some (Foreign UnsupportedTypeError)), r, [])) ∧
  (∀ filterData,
     UpdatePostByFilter (Some filterData) (Some bad) w r
     = (Returns (None, Some (Foreign UnsupportedTypeError)), r, [])) ∧
  (∀ updateOptions,
     UpdatePostByFilter (Some bad) (Some updateOptions) w r
     = (Returns (None, Some (Foreign UnsupportedTypeError)), r, [])) ∧
  DeletePostByFilter (Some bad) w r
  = (Returns (None, Some (Foreign UnsupportedTypeError)), r, []) ∧
  (∀ sort limit,
     ReadPostByFilter (VMap (Some bad)) sort limit w r
     = (Returns (None, Some (Foreign UnsupportedTypeError)), r, [])).
Proof.
  intros Hbad. split_and!.
  - rewrite CreatePost_eq. case_decide; [done|].
    by rewrite this_bind, Marshal_map, Hbad.
  - intros postID Hid. rewrite UpdatePostByID_eq. repeat case_decide; try done.
    by rewrite this_bind, Marshal_set, Hbad.
  - intros filterData. rewrite UpdatePostByFilter_eq. repeat case_decide; try done.
    by rewrite this_bind, Marshal_filter_set, Hbad, andb_false_r.
  - intros updateOptions. rewrite UpdatePostByFilter_eq. repeat case_decide; try done.
    by rewrite this_bind, Marshal_filter_set, Hbad.
  - rewrite DeletePostByFilter_eq. case_decide; [done|].
    by rewrite this_bind, Marshal_filter, Hbad.
  - intros sort limit. rewrite ReadPostByFilter_eq, this_bind, Marshal_query.
    cbn [default_filter]. by rewrite Hbad.
Qed.

Lemma unmarshalable_payload_sends_nothing_witness :
  CreatePost (Some {[ "callback" := VChan ]}) (served (JObject ∅)) client_RD
  = (Returns (None, Some (Foreign UnsupportedTypeError)), client_RD, []).
Proof.
  destruct (unmarshalable_payload_sends_nothing {[ "callback" := VChan ]}
              (served (JObject ∅)) client_RD) as [Hcreate _]; [reflexivity|].
  exact Hcreate.
Defined.

(** X15. A configured header whose name collides with no other configured
    name (two names collide when they have the same canonical form) is sent
    by [makeRequest] under its canonical name with its own value, in
    whatever order the headers are visited. *)
Theorem distinct_headers_sent_verbatim (method url : string) (body : option payload)
    (w : World) (r : Racs) (req : Request) (key val : string) :
  req ∈ requests (trace_of (makeRequest method url body w r)) →
  Headers r !! key = Some val →
  (∀ key', is_Some (Headers r !! key') →
     CanonicalMIMEHeaderKey key' = CanonicalMIMEHeaderKey key → key' = key) →
  ReqHeader req !! CanonicalMIMEHeaderKey key = Some [val].
Proof.
  intros Hin Hkey Hdistinct.
  assert (ReqHeader req = range_Set (Headers r) ∅) as ->.
  { revert Hin. rewrite makeRequest_run.
    destruct (world_NewRequest w method url); [by intros ?%elem_of_nil|].
    destruct (world_Do w _); cbn; by intros ->%list_elem_of_singleton. }
  destruct (range_Set_attaches (Headers r)) as [Hall _].
  destruct (Hall key val Hkey) as (key' & val' & Hkey' & Hcanon & ->).
  assert (key' = key) as -> by (apply Hdistinct; [by eexists|done]).
  congruence.
Qed.

Lemma distinct_headers_sent_verbatim_witness :
  ReqHeader (built (with_header "x-api-key" "secret" client_RD) "GET" "u" None)
    !! "X-Api-Key" = Some ["secret"].
Proof.
  apply (distinct_headers_sent_verbatim "GET" "u" None (served (JObject ∅))
           (with_header "x-api-key" "secret" client_RD)
           (built (with_header "x-api-key" "secret" client_RD) "GET" "u" None)
           "x-api-key" "secret").
  - vm_compute. left.
  - reflexivity.
  - intros key' [v Hv]. cbn in Hv.
    apply lookup_insert_Some in Hv as [[<- _]|[_ Hv]]; [done|].
    apply lookup_singleton_Some in Hv as [<- _]. vm_compute. discriminate.
Defined.

(** X16. When the answer to the request of a call cannot be decoded into a
    mapping, the call returns the decoder's error with a nil mapping: the
    counts are not looked at, so the updates and deletes do not panic, the
    body is closed, and nothing is printed. *)
Theorem decode_error_is_returned (op : M result) (w : World) (r : Racs)
    (req : Request) (answer : stream) (partial : gomap) (err : error) :
  operation op →
  req ∈ requests (trace_of (op w r)) →
  world_Do w req = inr answer →
  Decode answer = (partial, Some err) →
  outcome_of (op w r) = Returns (None, Some err) ∧
  printed (trace_of (op w r)) = [] ∧
  closed_bodies (trace_of (op w r)) = 1%nat.
Proof.
  intros Hop. revert answer.
  operation_run op w r Hop; cbn; intros answer';
    try (by intros ?%elem_of_nil);
    intros ->%list_elem_of_singleton Hdo' Hdecode';
    rewrite Hdo' in Hdo; simplify_eq;
    try (rewrite Hdecode' in Hdecode; by simplify_eq).
  - unfold returned. by rewrite Hdecode'.
  - unfold returned. by rewrite Hdecode'.
Qed.

Lemma decode_error_is_returned_witness :
  outcome_of (DeletePostByID "abc" (served (JArray [])) client_RD)
  = Returns (None, Some (Foreign UnmarshalTypeError)).
Proof.
  destruct (decode_error_is_returned (DeletePostByID "abc") (served (JArray [])) client_RD
              (built client_RD "DELETE" "https://racs.rest/v3/abc?resource=R&dataset=D" None)
              (Document (JArray [])) None (Foreign UnmarshalTypeError)) as [Hout _].
  - apply op_DeletePostByID.
  - vm_compute. left.
  - reflexivity.
  - reflexivity.
  - exact Hout.
Defined.

(** X17. When [http.NewRequest] refuses what it is given, no operation
    sends anything and none succeeds: the call returns an error and a nil
    mapping without a request. *)
Theorem refused_request_sends_nothing (op : M result) (w : World) (r : Racs) :
  operation op →
  (∀ method url, world_NewRequest w method url ≠ None) →
  requests (trace_of (op w r)) = [] ∧
  ∃ err, outcome_of (op w r) = Returns (None, Some err).
Proof.
  intros Hop Hrefuse.
  operation_run op w r Hop; cbn; try (split; [done|by eexists]);
    by destruct (Hrefuse _ _ Hnew).
Qed.

Lemma refused_request_sends_nothing_witness :
  let strict := {| world_Open := λ _, None; world_Copy := λ _, inr "contents";
                   world_NewRequest := λ method url, Some (UrlError "parse" url);
                   world_Do := λ _, inr (Document (JObject ∅)) |} in
  requests (trace_of (ReadPostByID "a b" strict client_RD)) = [].
Proof.
  intros strict.
  destruct (refused_request_sends_nothing (ReadPostByID "a b") strict client_RD)
    as [Hnone _]; [apply op_ReadPostByID|done|].
  exact Hnone.
Defined.
